(** * Luxon logging pipeline and cache facade: a shallow embedding

    Embedded sources:
    - [luxon/core/logger.py]   : [log_formatted], [set_level], [configure],
      [MPLogger] ([__init__], [receive], [close]), [GetLogger]
      ([__init__], [configure], the emit operations);
    - [luxon/utils/unique.py]  : [string_id], [request_id];
    - [luxon/core/cache/cache.py] : [Cache.store].

    Conventions.
    - A Python [str] is a [string]; the embedding treats text as ASCII:
      bytes above 127 are ordinary non-blank characters that [upper] and
      [lower] leave alone.  The statements about a rejected level text
      and about a message of one short line ask for [PyStr.isascii].
    - A Python exception is a value of [exn]; a call that can raise
      returns a [result].
    - Objects that are mutated through aliases (logging handlers) live in
      a store and are referred to by address. *)

From Stdlib Require Import ZArith Lia Ascii.
From stdpp Require Import gmap strings list pretty.

Local Open Scope Z_scope.

(** ** Exceptions and results *)

Inductive exn : Type :=
| ValueError (msg : string)
| TypeError (msg : string)
| OverflowError
| IndexError
| UnboundLocalError
| OSError
| AttributeError.

Inductive result (A : Type) : Type :=
| OK (a : A)
| Raise (e : exn).
Arguments OK {A} a.
Arguments Raise {A} e.

(** ** Python [str] operations used by the sources *)

Module PyStr.

(** [str.isspace] on the ASCII range: TAB, LF, VT, FF, CR, FS, GS, RS,
    US and the space. *)
Definition is_space (c : ascii) : bool :=
  match c with
  | "009" | "010" | "011" | "012" | "013"
  | "028" | "029" | "030" | "031" | " " => true
  | _ => false
  end%char.

Fixpoint lstrip (s : string) : string :=
  match s with
  | "" => ""
  | String c s' => if is_space c then lstrip s' else s
  end.

Fixpoint rstrip (s : string) : string :=
  match s with
  | "" => ""
  | String c s' =>
      match rstrip s' with
      | "" => if is_space c then "" else String c ""
      | r => String c r
      end
  end.

(** [s.strip()] *)
Definition strip (s : string) : string := rstrip (lstrip s).

Definition upper_char (c : ascii) : ascii :=
  let n := nat_of_ascii c in
  if ((97 <=? n) && (n <=? 122))%nat then ascii_of_nat (n - 32) else c.

Definition lower_char (c : ascii) : ascii :=
  let n := nat_of_ascii c in
  if ((65 <=? n) && (n <=? 90))%nat then ascii_of_nat (n + 32) else c.

Fixpoint map_chars (f : ascii -> ascii) (s : string) : string :=
  match s with
  | "" => ""
  | String c s' => String (f c) (map_chars f s')
  end.

(** [s.upper()] and [s.lower()] *)
Definition upper : string -> string := map_chars upper_char.
Definition lower : string -> string := map_chars lower_char.

(** [sep.join(l)] *)
Fixpoint join (sep : string) (l : list string) : string :=
  match l with
  | [] => ""
  | [x] => x
  | x :: l' => x +:+ sep +:+ join sep l'
  end.

(** [s[:n]] and [s[n:]] for [0 <= n] *)
Fixpoint take (n : nat) (s : string) : string :=
  match n, s with
  | S n', String c s' => String c (take n' s')
  | _, _ => ""
  end.

Fixpoint drop (n : nat) (s : string) : string :=
  match n, s with
  | S n', String c s' => drop n' s'
  | _, _ => s
  end.

(** [s[i]] *)
Fixpoint get (i : nat) (s : string) : option ascii :=
  match s, i with
  | "", _ => None
  | String c _, O => Some c
  | String _ s', S i' => get i' s'
  end.

(** [c in s] *)
Fixpoint mem (c : ascii) (s : string) : bool :=
  match s with
  | "" => false
  | String d s' => if decide (c = d) then true else mem c s'
  end.

(** [s.startswith(p)] *)
Fixpoint startswith (p s : string) : bool :=
  match p, s with
  | "", _ => true
  | String a p', String b s' => if decide (a = b) then startswith p' s' else false
  | _, _ => false
  end.

(** [sub in s] *)
Fixpoint contains (sub s : string) : bool :=
  startswith sub s
  || match s with
     | "" => false
     | String _ s' => contains sub s'
     end.

(** [s.isascii()] *)
Fixpoint isascii (s : string) : bool :=
  match s with
  | "" => true
  | String c s' => (nat_of_ascii c <? 128)%nat && isascii s'
  end.

(** ['%s' % n] for a natural number. *)
Definition of_nat (n : nat) : string := pretty n.

End PyStr.

(** ** luxon/utils/unique.py *)

Module Unique.

Definition ascii_letters : string :=
  "abcdefghijklmnopqrstuvwxyzABCDEFGHIJKLMNOPQRSTUVWXYZ".
Definition digits : string := "0123456789".

(** [random.choice(seq)]: the generator's draw [r] selects an index of
    [seq]. *)
Definition choice (r : nat) (seq : string) : string :=
  match PyStr.get (r mod String.length seq) seq with
  | Some c => String c ""
  | None => ""
  end.

(** [string_id(length)]; [rnd i] is the i-th draw of the random
    generator during the call. *)
Definition string_id (length : nat) (rnd : nat -> nat) : string :=
  PyStr.join ""
    (map (fun i => choice (rnd i) (ascii_letters +:+ digits)) (seq 0 length)).

End Unique.

(** ** luxon/utils/split.py and luxon/utils/formatting.py

    These helper modules are imported by [logger.py] but are not part of
    the embedded sources.  [log_formatted] below takes them as
    parameters; the definitions here instantiate the parameters. *)

Module Split.

(** Modelled from the spec: [list_of_lines] (luxon/utils/split.py) is
    missing from the sources.  "Split the message on newlines": the
    text is cut at every LF character, as [str.split] does. *)
Fixpoint list_of_lines (s : string) : list string :=
  match s with
  | "" => [""]
  | String c s' =>
      if decide (c = "010"%char) then "" :: list_of_lines s'
      else match list_of_lines s' with
           | [] => [String c ""]
           | l :: ls => String c l :: ls
           end
  end.

Fixpoint split_by_n_go (fuel : nat) (seq : string) (n : nat) : list string :=
  match fuel with
  | O => []
  | S fuel' =>
      match seq with
      | "" => []
      | _ => PyStr.take n seq :: split_by_n_go fuel' (PyStr.drop n seq) n
      end
  end.

(** Modelled from the spec: [split_by_n] (luxon/utils/split.py) is
    missing from the sources.  "Split each resulting line into
    fixed-width chunks of at most [n] characters": successive slices
    [seq[:n]], [seq[n:2n]], ... until the text is used up; an empty
    text has no chunk.  The length of [seq] bounds the number of
    slices for [n >= 1]. *)
Definition split_by_n (seq : string) (n : nat) : list string :=
  split_by_n_go (String.length seq) seq n.

End Split.

Module Formatting.

(** Modelled from the spec: [format_seconds] (luxon/utils/formatting.py)
    is missing from the sources.  The spec only says that the suffix
    carries the "formatted seconds"; this instance prints the number
    of seconds in decimal followed by the unit. *)
Definition format_seconds (t : Z) : string := pretty t +:+ "s".

End Formatting.

(** ** luxon/core/logger.py: [log_formatted] *)

(** The per-request context read through [g.current_request]: the
    items of its [log] and its [id], which is [None] when reading it
    raises [NotImplementedError]. *)
Record request_context : Type := {
  request_log : list (string * string);
  request_id : option string
}.

Section LogFormatted.

Variable format_seconds : Z -> string.
Variable list_of_lines : string -> list string.
Variable split_by_n : string -> nat -> list string.

(** Lines 68-77.  [current_request = None] stands for
    [NoContextError]. *)
Definition request_of (current_request : option request_context) : string :=
  match current_request with
  | Some r =>
      let log_items :=
        request_log r ++ match request_id r with
                 | Some i => [("REQUEST-ID", i)]
                 | None => []
                 end in
      PyStr.join " "
        (map (fun kv => "(" +:+ fst kv +:+ ": " +:+ snd kv +:+ ")") log_items)
  | None => ""
  end.

(** Lines 82-83. *)
Definition with_duration (message : string) (timer : option Z) : string :=
  match timer with
  | Some t => message +:+ " (DURATION: " +:+ format_seconds t +:+ ")"
  | None => message
  end.

(** Lines 85-92: [message += split_by_n(line, 300)] for every line. *)
Definition chunks_of (message : string) : list string :=
  flat_map (fun line => split_by_n line 300) (list_of_lines message).

(** Lines 101-103: the [for line, p in enumerate(message)] loop.  The
    state is the lines handed to the logger so far and the current
    binding of the loop variable [line], which survives the loop. *)
Definition chunk_loop (log_id : string) (message : list string)
  : list string * option nat :=
  fold_left
    (fun st lp =>
       let '(line, p) := lp in
       let msg := "(" +:+ log_id +:+ ") " +:+ PyStr.of_nat (line + 1)
                      +:+ "# " +:+ p in
       (fst st ++ [msg], Some line))
    (imap (fun line p => (line, p)) message)
    ([], None).

(** [log_formatted(logger_facility, message, prepend, append, timer,
    log_id)].  [message] is the text [str(if_bytes_to_unicode(message))].
    The result lists, in order, the arguments of the calls to
    [logger_facility]. *)
Definition log_formatted (rnd : nat -> nat)
    (current_request : option request_context)
    (message : string) (prepend append : option string)
    (timer : option Z) (log_id : option string) : result (list string) :=
  let request := request_of current_request in
  let message := PyStr.strip message in
  if decide (message <> "") then
    let message := with_duration message timer in
    let message := chunks_of message in
    if decide (1 < length message)%nat then
      let log_id := match log_id with
                    | None => Unique.string_id 6 rnd
                    | Some i => i
                    end in
      let lead := match prepend with
                  | Some p => ["(" +:+ log_id +:+ ") #0 " +:+ p]
                  | None => []
                  end in
      let '(body, line) := chunk_loop log_id message in
      match append with
      | Some a =>
          match line with
          | Some line =>
              OK (lead ++ body ++
                  ["(" +:+ log_id +:+ ") #" +:+ PyStr.of_nat (line + 2)
                       +:+ " " +:+ a])
          | None => Raise UnboundLocalError
          end
      | None => OK (lead ++ body)
      end
    else
      let msg := match log_id with
                 | Some i => "(" +:+ i +:+ ") "
                 | None => ""
                 end in
      match message !! 0%nat with
      | None => Raise IndexError
      | Some m0 =>
          let msg := match prepend with
                     | Some p => msg +:+ p +:+ " " +:+ m0
                     | None => msg +:+ m0
                     end in
          let msg := match append with
                     | Some a => msg +:+ " " +:+ a
                     | None => msg
                     end in
          let msg := msg +:+ " " +:+ request in
          OK [msg]
      end
  else OK [].

End LogFormatted.

(** [log_formatted] with the helper modules plugged in. *)
Definition log_formatted_std :=
  log_formatted Formatting.format_seconds Split.list_of_lines Split.split_by_n.

(** ** luxon/core/logger.py: handlers, loggers and the configuration *)

(** A Python [float]: the finite value [m * 2 ^ e], an infinity or
    NaN. *)
Inductive pyfloat : Type :=
| Finite (m e : Z)
| Infinity (negative : bool)
| NaN.

(** A value read from the configuration or passed by a caller where the
    code takes a number or a text: an [int] (a [bool] is one), a
    [float], a [str] or [None]. *)
Inductive pyval : Type :=
| VInt (n : Z)
| VFloat (f : pyfloat)
| VStr (s : string)
| VNone.

(** Where a handler writes: [StreamHandler(stream=sys.stdout)],
    [SysLogHandler(address=path)], [SysLogHandler(address=(host, port))],
    [FileHandler(filename)], [QueueHandler(queue)]. *)
Inductive sink : Type :=
| StreamHandler
| SysLogHandler (address : string)
| SysLogHandlerNet (host : string) (port : pyval)
| FileHandler (filename : string)
| QueueHandler.

(** The two module-level formatters (lines 49-57). *)
Inductive Formatter : Type :=
| log_format
| simple_format.

(** [_TachyonFilter(app_name)] *)
Record TachyonFilter : Type := { app_name : option string }.

(** A handler object. *)
Record Handler : Type := {
  handler_sink : sink;
  formatter : option Formatter;
  filters : list TachyonFilter
}.

(** A [logging.Logger]: [handlers] holds the addresses of handler
    objects, [parent] the next logger up the dotted-name hierarchy. *)
#[warnings="-register-all"]
Inductive Logger : Type := mkLogger {
  name : string;
  level : Z;
  handlers : list nat;
  parent : option Logger
}.

(** The part of the process state that [configure] works on: the store
    of handler objects, the next free address, and the logger handed to
    [configure]. *)
Record World : Type := {
  heap : gmap nat Handler;
  next : nat;
  logger : Logger
}.

(** Facts about the machine that the code queries. *)
Record Env : Type := {
  is_socket : string -> bool;       (* luxon.utils.files.is_socket *)
  can_open : sink -> bool           (* constructing the handler succeeds *)
}.

(** Computations over the world that may raise. *)
Definition M (A : Type) : Type := World -> World * result A.

#[global] Instance M_ret : MRet M := fun A a w => (w, OK a).
#[global] Instance M_bind : MBind M := fun A B f m w =>
  match m w with
  | (w', OK a) => f a w'
  | (w', Raise e) => (w', Raise e)
  end.

Definition raise {A : Type} (e : exn) : M A := fun w => (w, Raise e).
Definition skip : M unit := mret tt.

(** [logger.handlers = hs] *)

Definition set_handlers (hs : list nat) : M unit := fun w =>
  let lg := logger w in
  ({| heap := heap w; next := next w;
      logger := {| name := name lg; level := level lg;
                   handlers := hs; parent := parent lg |} |}, OK tt).

(** [list.remove(x)]: drops the first element equal to [x]. *)
Fixpoint list_remove (x : nat) (l : list nat) : list nat :=
  match l with
  | [] => []
  | y :: l' => if decide (x = y) then l' else y :: list_remove x l'
  end.

(** [Logger.setLevel(level)] *)
Definition setLevel (lvl : Z) : M unit := fun w =>
  let lg := logger w in
  ({| heap := heap w; next := next w;
      logger := {| name := name lg; level := lvl;
                   handlers := handlers lg; parent := parent lg |} |}, OK tt).

(** [Logger.addHandler(hdlr)]: appends unless already present. *)
Definition addHandler (hdlr : nat) : M unit := fun w =>
  if decide (hdlr ∈ handlers (logger w)) then (w, OK tt)
  else set_handlers (handlers (logger w) ++ [hdlr]) w.

(** [Logger.removeHandler(hdlr)]: removes from the list in place. *)
Definition removeHandler (hdlr : nat) : M unit := fun w =>
  if decide (hdlr ∈ handlers (logger w))
  then set_handlers (list_remove hdlr (handlers (logger w))) w
  else (w, OK tt).

(** Constructing a handler object: a fresh address in the store. *)
Definition new_handler (env : Env) (s : sink) : M nat := fun w =>
  if can_open env s then
    ({| heap := <[next w := {| handler_sink := s; formatter := None;
                               filters := [] |}]> (heap w);
        next := S (next w);
        logger := logger w |}, OK (next w))
  else (w, Raise OSError).

(** [Handler.setFormatter(fmt)] *)
Definition setFormatter (hdlr : nat) (fmt : Formatter) : M unit := fun w =>
  ({| heap := alter (fun h => {| handler_sink := handler_sink h;
                                 formatter := Some fmt;
                                 filters := filters h |}) hdlr (heap w);
      next := next w; logger := logger w |}, OK tt).

(** [Handler.addFilter(filter)] *)
Definition addFilter (hdlr : nat) (flt : TachyonFilter) : M unit := fun w =>
  ({| heap := alter (fun h => {| handler_sink := handler_sink h;
                                 formatter := formatter h;
                                 filters := filters h ++ [flt] |}) hdlr (heap w);
      next := next w; logger := logger w |}, OK tt).

(** *** [set_level] (lines 145-160) *)

(** The decimal digits of [int(text)]: digits, single underscores only
    between digits. *)
Fixpoint digits_value (acc : Z) (after_digit : bool) (s : string) : option Z :=
  match s with
  | "" => if after_digit then Some acc else None
  | String c s' =>
      match Ascii.is_nat c with
      | Some d => digits_value (10 * acc + Z.of_nat d) true s'
      | None =>
          if decide (c = "_"%char) then
            if after_digit then digits_value acc false s' else None
          else None
      end
  end.

(** The blanks that [int] skips around a literal: TAB, LF, VT, FF, CR
    and the space.  The separators FS, GS, RS and US, which [str.strip]
    removes, are not among them. *)
Definition int_space (c : ascii) : bool :=
  match c with
  | "009" | "010" | "011" | "012" | "013" | " " => true
  | _ => false
  end%char.

Fixpoint int_lstrip (s : string) : string :=
  match s with
  | "" => ""
  | String c s' => if int_space c then int_lstrip s' else s
  end.

Fixpoint int_rstrip (s : string) : string :=
  match s with
  | "" => ""
  | String c s' =>
      match int_rstrip s' with
      | "" => if int_space c then "" else String c ""
      | r => String c r
      end
  end.

(** The number of decimal digits of a text, and the most that [int]
    converts ([sys.get_int_max_str_digits()], 4300 unless changed). *)
Fixpoint count_digits (s : string) : nat :=
  match s with
  | "" => O
  | String c s' =>
      match Ascii.is_nat c with
      | Some _ => S (count_digits s')
      | None => count_digits s'
      end
  end.

Definition int_max_str_digits : nat := 4300.

(** [int(text)]: blanks around the literal are skipped, one sign is
    allowed, and a literal of more than [int_max_str_digits] digits is
    refused; [None] stands for [ValueError]. *)
Definition int_of_str (s : string) : option Z :=
  let t := int_rstrip (int_lstrip s) in
  if (int_max_str_digits <? count_digits t)%nat then None
  else
    match t with
    | String "+" t => digits_value 0 false t
    | String "-" t => Z.opp <$> digits_value 0 false t
    | t => digits_value 0 false t
    end.

(** [int(x)] for a [float]: the value cut toward zero. *)
Definition int_of_float (f : pyfloat) : result Z :=
  match f with
  | Finite m e =>
      OK (if decide (0 <= e) then m * 2 ^ e else Z.quot m (2 ^ (- e)))
  | Infinity _ => Raise OverflowError
  | NaN => Raise (ValueError "cannot convert float NaN to integer")
  end.

(** [getattr(logging, name)] for the level constants. *)
Definition logging_attr (attr : string) : option Z :=
  if decide (attr = "CRITICAL") then Some 50
  else if decide (attr = "ERROR") then Some 40
  else if decide (attr = "WARNING") then Some 30
  else if decide (attr = "INFO") then Some 20
  else if decide (attr = "DEBUG") then Some 10
  else None.

Definition level_names : list string :=
  ["CRITICAL"; "ERROR"; "WARNING"; "INFO"; "DEBUG"].

(** [set_level(logger, level)].  [int(level)] succeeds on a finite
    number and on a numeric text.  The [except ValueError] branch is
    reached with a text, and with NaN, where [level.upper] then fails;
    the [TypeError] of [int(None)] and the [OverflowError] of an
    infinity are not caught. *)
Definition set_level (lvl : pyval) : M unit :=
  match lvl with
  | VInt n => setLevel n
  | VFloat f =>
      match int_of_float f with
      | OK n => setLevel n
      | Raise (ValueError _) => raise AttributeError
      | Raise e => raise e
      end
  | VNone =>
      raise (TypeError ("int() argument must be a string, a bytes-like "
                          +:+ "object or a real number, not 'NoneType'"))
  | VStr s =>
      match int_of_str s with
      | Some n => setLevel n
      | None =>
          let lvl := PyStr.strip (PyStr.upper s) in
          if decide (lvl ∈ level_names) then
            match logging_attr lvl with
            | Some r => setLevel r
            | None => raise AttributeError
            end
          else
            fun w =>
              raise (ValueError ("Invalid logging level '" +:+ lvl +:+ "'"
                                   +:+ " for logger"
                                   +:+ " '" +:+ name (logger w) +:+ "'")) w
      end
  end.

(** *** [configure] (lines 163-233) *)

(** The configuration as the code reads it: every section that
    [config_section in config] finds, with the options that
    [section.get] finds in it. *)
Abbreviation Section_ := (gmap string string).
Abbreviation Config := (gmap string (gmap string string)).

(** [section.getboolean(option, fallback=...)]: the texts accepted by
    [configparser], compared in lower case; anything else raises
    [ValueError]. *)
Definition getboolean (section : Section_) (option : string) (fallback : bool)
  : M bool :=
  match section !! option with
  | None => mret fallback
  | Some value =>
      let v := PyStr.lower value in
      if decide (v ∈ ["1"; "yes"; "true"; "on"]) then mret true
      else if decide (v ∈ ["0"; "no"; "false"; "off"]) then mret false
      else raise (ValueError ("Not a boolean: " +:+ value))
  end.

(** Lines 168-169: [for handler in logger.handlers:
    logger.removeHandler(handler)].  The iterator walks the very list
    that [removeHandler] shrinks: step [i] reads position [i] of the
    list as it is then, and the loop ends when [i] is past its end.  At
    most [length] steps can run, which [fuel] counts. *)
Fixpoint remove_handlers_loop (fuel i : nat) : M unit :=
  match fuel with
  | O => skip
  | S fuel' =>
      fun w =>
        match handlers (logger w) !! i with
        | None => (w, OK tt)
        | Some handler =>
            (removeHandler handler ;; remove_handlers_loop fuel' (S i)) w
        end
  end.

Definition remove_handlers : M unit := fun w =>
  remove_handlers_loop (length (handlers (logger w))) 0 w.

(** Lines 222-224 and their two copies: the three calls that finish a
    sink of the configured section. *)
Definition attach (handler : nat) (flt : TachyonFilter) : M unit :=
  setFormatter handler log_format ;;
  addFilter handler flt ;;
  addHandler handler.

(** Lines 167-175: the body of the first [if]. *)
Definition configure_default (env : Env) : M unit :=
  (* Clean/Remove Handlers *)
  remove_handlers ;;
  (* DEFAULT Set Stdout *)
  handler ← new_handler env StreamHandler ;
  addFilter handler {| app_name := None |} ;;
  addHandler handler ;;
  setFormatter handler simple_format.

(** Lines 206-220: the handler of the syslog sink. *)
Definition syslog_handler (env : Env) (host : string) (port : pyval) : M nat :=
  if decide (host = "127.0.0.1" ∨ PyStr.lower host = "localhost") then
    if is_socket env "/dev/log" then
      new_handler env (SysLogHandler "/dev/log")
    else if is_socket env "/var/run/syslog" then
      new_handler env (SysLogHandler "/var/run/syslog")
    else new_handler env (SysLogHandlerNet host port)
  else new_handler env (SysLogHandlerNet host port).

(** Lines 178-233: the body of the second [if]. *)
Definition configure_section (env : Env) (config_section : string)
    (section : Section_) : M unit :=
  (* Giving out-of-context apps the opportunity to specify a name *)
  let _tachyonfilter :=
    if decide (config_section = "application" ∧ is_Some (section !! "name"))
    then {| app_name := section !! "name" |}
    else {| app_name := None |} in
  (* Remove Handlers *)
  set_handlers [] ;;
  (* Set Logger Level *)
  match section !! "log_level" with
  | Some lvl => set_level (VStr lvl)
  | None =>
      if decide (config_section = "application")
      then set_level (VStr "WARNING") else skip
  end ;;
  (* Set Stdout *)
  log_stdout ← getboolean section "log_stdout" false ;
  (if (log_stdout : bool) then
     handler ← new_handler env StreamHandler ;
     attach handler _tachyonfilter
   else skip) ;;
  (* Set Syslog *)
  match section !! "log_server" with
  | Some host =>
      let port := match section !! "log_server_port" with
                  | Some p => VStr p
                  | None => VInt 514
                  end in
      handler ← syslog_handler env host port ;
      attach handler _tachyonfilter
  | None => skip
  end ;;
  (* ENABLE FILE LOG FOR GLOBAL OR MODULE *)
  match section !! "log_file" with
  | Some log_file =>
      handler ← new_handler env (FileHandler log_file) ;
      attach handler _tachyonfilter
  | None => skip
  end.

(** [configure(config, config_section, logger)]; the logger is the one
    of the world. *)
Definition configure (env : Env) (config : Config) (config_section : string)
  : M unit :=
  (if decide (config_section = "application" ∧ config !! config_section = None)
   then configure_default env
   else skip) ;;
  match config !! config_section with
  | Some section => configure_section env config_section section
  | None => skip
  end.

(** The sinks attached to the logger, read through the store. *)
Definition attached (w : World) : list (option Handler) :=
  map (fun a => heap w !! a) (handlers (logger w)).

(** *** [MPLogger.receive.receiver] (lines 290-322) *)

(** A record taken off the transport. *)
Record LogRecord : Type := { record_name : string; record_msg : string }.

(** What one call of [queue.get()] does: it returns a record, returns
    [None] (the shutdown sentinel), returns an object that is not a
    record (using it raises an [Exception]), or raises. *)
Inductive get_result : Type :=
| Returns (record : option LogRecord)
| ReturnsMalformed
| RaisesInterrupt          (* KeyboardInterrupt, SystemExit *)
| RaisesException.         (* any other Exception *)

(** How the privilege switch before the loop goes. *)
Inductive switch_result : Type :=
| NoUser
| Switched
| SwitchRaises.

(** What the receiver process does, as seen from outside. *)
Inductive action : Type :=
| Get                               (* a call of [queue.get()] *)
| Handle (record : LogRecord)       (* [logger.handle(record)] *)
| Stderr.                           (* the report on [sys.stderr] *)

(** How a run of the inner [while] ends. *)
Inductive inner_end : Type :=
| Break            (* [break] *)
| CondFalse        (* [self._running] was false at the test *)
| Interrupted      (* left by KeyboardInterrupt or SystemExit *)
| Failed           (* left by another Exception *)
| Waiting.         (* inside [queue.get()], nothing more arrives *)

(** How the receiver ends. *)
Inductive receiver_end : Type :=
| Exited
| Blocked
| OutOfFuel.

(** Lines 308-316: the inner loop, run on the results of the coming
    [queue.get()] calls. *)
Fixpoint inner_loop (_running : bool) (gets : list get_result)
  : list action * inner_end * list get_result :=
  if _running then
    match gets with
    | [] => ([Get], Waiting, [])
    | Returns None :: rest => ([Get], Break, rest)
    | Returns (Some record) :: rest =>
        let '(acts, e, rest') := inner_loop _running rest in
        (Get :: Handle record :: acts, e, rest')
    | ReturnsMalformed :: rest => ([Get], Failed, rest)
    | RaisesInterrupt :: rest => ([Get], Interrupted, rest)
    | RaisesException :: rest => ([Get], Failed, rest)
    end
  else ([], CondFalse, gets).

(** Lines 306-322: the outer loop with its two [except] clauses. *)
Fixpoint outer_loop (fuel : nat) (_running : bool) (gets : list get_result)
  : list action * receiver_end :=
  match fuel with
  | O => ([], OutOfFuel)
  | S fuel' =>
      if _running then
        let '(acts, e, rest) := inner_loop _running gets in
        match e with
        | Break | CondFalse =>
            let '(acts', r) := outer_loop fuel' _running rest in
            (acts ++ acts', r)
        | Interrupted =>
            let '(acts', r) := outer_loop fuel' false rest in
            (acts ++ acts', r)
        | Failed =>
            let '(acts', r) := outer_loop fuel' _running rest in
            (acts ++ (if _running then [Stderr] else []) ++ acts', r)
        | Waiting => (acts, Blocked)
        end
      else ([], Exited)
  end.

(** [receiver()]: every turn of the outer loop uses up at least one
    [queue.get()] result or ends the run, so the fuel given is never
    used up ([receiver_never_out_of_fuel]). *)
Definition receiver (switch : switch_result) (gets : list get_result)
  : list action * receiver_end :=
  let _running := true in
  let '(acts0, _running) :=
    match switch with
    | SwitchRaises => ([Stderr], false)
    | _ => ([], _running)
    end in
  let '(acts, r) := outer_loop (length gets + 2) _running gets in
  (acts0 ++ acts, r).

(** The number of [queue.get()] calls in a run. *)
Fixpoint gets_made (acts : list action) : nat :=
  match acts with
  | [] => 0
  | Get :: acts' => S (gets_made acts')
  | _ :: acts' => gets_made acts'
  end.

(** *** [GetLogger] (lines 338-461) *)

(** [Logger.getEffectiveLevel()]: the first level that is set on the way
    up to the root, [NOTSET] if there is none. *)
Fixpoint getEffectiveLevel (lg : Logger) : Z :=
  match lg with
  | mkLogger _ lvl _ par =>
      if decide (lvl <> 0) then lvl
      else match par with
           | Some p => getEffectiveLevel p
           | None => 0
           end
  end.

Definition CRITICAL : Z := 50.
Definition ERROR : Z := 40.
Definition WARNING : Z := 30.
Definition INFO : Z := 20.
Definition DEBUG : Z := 10.

Section GetLogger.

Variable format_seconds : Z -> string.
Variable list_of_lines : string -> list string.
Variable split_by_n : string -> nat -> list string.

(** The arguments that every emit operation hands on to
    [log_formatted]. *)
Record emit_args : Type := {
  rnd : nat -> nat;
  current_request : option request_context;
  msg : string;
  prepend : option string;
  append : option string;
  timer : option Z;
  log_id : option string
}.

(** The call [log_formatted(self.logger.<severity>, msg, prepend,
    append, timer, log_id)]. *)
Definition format (a : emit_args) : result (list string) :=
  log_formatted format_seconds list_of_lines split_by_n
    (rnd a) (current_request a) (msg a) (prepend a) (append a) (timer a)
    (log_id a).

(** The five emit operations; [self] is the wrapped [logging.Logger].
    The result lists the lines handed to the logger's method of that
    severity. *)
Definition critical (self : Logger) (a : emit_args) : result (list string) :=
  if decide (getEffectiveLevel self <= CRITICAL) then format a else OK [].

Definition error (self : Logger) (a : emit_args) : result (list string) :=
  if decide (getEffectiveLevel self <= ERROR) then format a else OK [].

Definition warning (self : Logger) (a : emit_args) : result (list string) :=
  if decide (getEffectiveLevel self <= WARNING) then format a else OK [].

Definition info (self : Logger) (a : emit_args) : result (list string) :=
  if decide (getEffectiveLevel self <= INFO) then format a else OK [].

Definition debug (self : Logger) (a : emit_args) : result (list string) :=
  if decide (getEffectiveLevel self <= DEBUG) then format a else OK [].

End GetLogger.

(** ** luxon/core/cache/cache.py *)

Module Cache.

Section Store.

(** The backend class is chosen by the configuration; its [store] is a
    parameter. *)
Context {Reference Obj Backend : Type}.
Variable backend_store : Reference -> Obj -> Z -> Backend -> Backend.

Record Cache : Type := { _cached_backend : Backend }.

(** [Cache.store(reference, obj, expire)] *)
Definition store (self : Cache) (reference : Reference) (obj : Obj)
    (expire : Z) : Cache :=
  let expire := if decide (expire > 604800) then 604800 else expire in
  {| _cached_backend := backend_store reference obj expire (_cached_backend self) |}.

End Store.

End Cache.

(** ** Reading the emitted lines *)

(** The tag that a line of a correlation batch starts with. *)
Definition id_tag (cid : string) : string := "(" +:+ cid +:+ ") ".

(** A line carries the correlation id [cid]. *)
Definition carries_id (cid line : string) : Prop :=
  PyStr.startswith (id_tag cid) line = true.

(** The line of the chunk at position [i] (counted from 0) of a batch. *)
Definition chunk_line (cid : string) (i : nat) (p : string) : string :=
  id_tag cid +:+ PyStr.of_nat (i + 1) +:+ "# " +:+ p.


(** Every character of a text satisfies [f]. *)
Fixpoint all_chars (f : ascii -> bool) (s : string) : bool :=
  match s with
  | "" => true
  | String c s' => f c && all_chars f s'
  end.

(** A letter or a digit. *)
Definition is_alnum (c : ascii) : bool :=
  PyStr.mem c (Unique.ascii_letters +:+ Unique.digits).

(** A text without a line feed. *)
Definition single_line (s : string) : Prop := PyStr.mem "010"%char s = false.

(** The single line in the words of the specification: correlation tag,
    prepend, message, append and request context in this order, every
    absent or empty field left out, the others separated by one space. *)
Definition spec_single_line (log_id prepend : option string) (message : string)
    (append : option string) (request : string) : string :=
  PyStr.join " "
    (filter (fun field => field <> "")
       [match log_id with Some i => "(" +:+ i +:+ ")" | None => "" end;
        default "" prepend; message; default "" append; request]).


(** The severities and the emit operation of each. *)
Inductive severity : Type :=
| SevCritical | SevError | SevWarning | SevInfo | SevDebug.

Definition rank (sev : severity) : Z :=
  match sev with
  | SevCritical => CRITICAL
  | SevError => ERROR
  | SevWarning => WARNING
  | SevInfo => INFO
  | SevDebug => DEBUG
  end.

Definition emit (format_seconds : Z -> string)
    (list_of_lines : string -> list string)
    (split_by_n : string -> nat -> list string) (sev : severity)
  : Logger -> emit_args -> result (list string) :=
  match sev with
  | SevCritical => critical format_seconds list_of_lines split_by_n
  | SevError => error format_seconds list_of_lines split_by_n
  | SevWarning => warning format_seconds list_of_lines split_by_n
  | SevInfo => info format_seconds list_of_lines split_by_n
  | SevDebug => debug format_seconds list_of_lines split_by_n
  end.

(** ** Concrete inputs used below *)

Definition two_lines : string := "ab" +:+ String "010" "cd".

(** A line of 299 characters. *)
Definition long_line : string := PyStr.join "" (replicate 299 "a").



(** A machine without syslog sockets on which every handler can be
    constructed. *)
Definition plain_env : Env :=
  {| is_socket := fun _ => false; can_open := fun _ => true |}.

Definition queue_handler : Handler :=
  {| handler_sink := QueueHandler; formatter := None; filters := [] |}.

Definition file_handler : Handler :=
  {| handler_sink := FileHandler "/tmp/x.log";
     formatter := Some log_format;
     filters := [{| app_name := None |}] |}.

(** The handler that the code installs by default. *)
Definition default_stdout : Handler :=
  {| handler_sink := StreamHandler;
     formatter := Some simple_format;
     filters := [{| app_name := None |}] |}.

(** A root logger that holds two handlers. *)
Definition two_handler_world : World :=
  {| heap := <[0%nat := queue_handler]> (<[1%nat := file_handler]> ∅);
     next := 2;
     logger := {| name := "root"; level := WARNING;
                  handlers := [0%nat; 1%nat]; parent := None |} |}.

(** A logger without a level of its own under a root set to [ERROR]. *)
Definition error_root : Logger :=
  {| name := "root"; level := ERROR; handlers := []; parent := None |}.

Definition child_logger : Logger :=
  {| name := "luxon.app"; level := 0; handlers := [];
     parent := Some error_root |}.

Definition hello_args : emit_args :=
  {| rnd := fun _ => 0%nat; current_request := None; msg := "hello";
     prepend := None; append := None; timer := None; log_id := None |}.

Definition late_record : LogRecord :=
  {| record_name := "luxon.app"; record_msg := "late" |}.

(** ** Reading the world *)

(** The elements at the odd positions 1, 3, 5, ... *)
Fixpoint every_other (l : list nat) : list nat :=
  match l with
  | _ :: y :: r => y :: every_other r
  | _ => []
  end.

(** The world with the logger's handler list replaced. *)
Definition with_handlers (hs : list nat) (w : World) : World :=
  (set_handlers hs w).1.

(** Every handler address of the logger lies below the next free
    address. *)
Definition bounded (w : World) : Prop :=
  Forall (fun a => (a < next w)%nat) (handlers (logger w)).

(** Two worlds whose loggers have the same name and the same sinks, up
    to the addresses of the handler objects. *)
Definition sim (w1 w2 : World) : Prop :=
  attached w1 = attached w2
  /\ name (logger w1) = name (logger w2)
  /\ bounded w1 /\ bounded w2.

(** Two worlds whose loggers have the same name. *)
Definition same_name (w1 w2 : World) : Prop :=
  name (logger w1) = name (logger w2).

(** From two worlds related by [R], the computation [m] ends in worlds
    with the same sinks and with the same outcome, and keeps the
    logger's name. *)
Definition related_from (R : World -> World -> Prop) {A : Type} (m : M A)
  : Prop :=
  forall w1 w2 : World,
    R w1 w2 ->
    sim (m w1).1 (m w2).1
    /\ (m w1).2 = (m w2).2
    /\ name (logger (m w1).1) = name (logger w1).

Abbreviation related := (related_from sim).

(** [c] is, in lower or upper case, the first letter of a level name. *)
Definition level_initial (c : ascii) : bool :=
  PyStr.mem (PyStr.upper_char c) "CEWID".

(** ** Reading a run of the receiver *)

(** The records handed to [logger.handle], in order. *)
Fixpoint handled (acts : list action) : list LogRecord :=
  match acts with
  | [] => []
  | Handle record :: acts' => record :: handled acts'
  | _ :: acts' => handled acts'
  end.

(** The number of reports on [sys.stderr]. *)
Fixpoint reports (acts : list action) : nat :=
  match acts with
  | [] => 0
  | Stderr :: acts' => S (reports acts')
  | _ :: acts' => reports acts'
  end.

(** What the transport delivers before the first interrupt. *)
Fixpoint before_interrupt (gets : list get_result) : list get_result :=
  match gets with
  | [] => []
  | RaisesInterrupt :: _ => []
  | g :: gets' => g :: before_interrupt gets'
  end.

(** The records among the results of [queue.get()]. *)
Fixpoint delivered (gets : list get_result) : list LogRecord :=
  match gets with
  | [] => []
  | Returns (Some record) :: gets' => record :: delivered gets'
  | _ :: gets' => delivered gets'
  end.

(** The results of [queue.get()] that make the loop body raise an
    [Exception]. *)
Fixpoint failures (gets : list get_result) : nat :=
  match gets with
  | [] => 0
  | (ReturnsMalformed | RaisesException) :: gets' => S (failures gets')
  | _ :: gets' => failures gets'
  end.

(** An interrupt is among the results. *)
Fixpoint interrupted (gets : list get_result) : bool :=
  match gets with
  | [] => false
  | RaisesInterrupt :: _ => true
  | _ :: gets' => interrupted gets'
  end.

(** No result is the sentinel. *)
Fixpoint no_sentinel (gets : list get_result) : bool :=
  match gets with
  | [] => true
  | Returns None :: _ => false
  | _ :: gets' => no_sentinel gets'
  end.

(** The run of the two loops, one result of [queue.get()] at a time. *)
Fixpoint turns (gets : list get_result) : list action * receiver_end :=
  match gets with
  | [] => ([Get], Blocked)
  | Returns None :: gets' => (Get :: (turns gets').1, (turns gets').2)
  | Returns (Some record) :: gets' =>
      (Get :: Handle record :: (turns gets').1, (turns gets').2)
  | (ReturnsMalformed | RaisesException) :: gets' =>
      (Get :: Stderr :: (turns gets').1, (turns gets').2)
  | RaisesInterrupt :: _ => ([Get], Exited)
  end.

(** A transport that delivers two records around a malformed object
    and a failing read, and is then interrupted. *)
Definition early_record : LogRecord :=
  {| record_name := "luxon.app"; record_msg := "early" |}.

Definition busy_transport : list get_result :=
  [Returns (Some early_record); ReturnsMalformed; RaisesException;
   Returns (Some late_record); RaisesInterrupt; Returns (Some early_record)].

(** ** luxon/utils/unique.py: the request id counter *)

Module UniqueRequest.

(** The module globals [req_c] and [pid]. *)
Record globals : Type := { req_c : option Z; pid : option string }.

Definition hex_alphabet : string := "0123456789abcdef".

Definition hex_digit (d : Z) : ascii :=
  default "0"%char (PyStr.get (Z.to_nat d) hex_alphabet).

(** The digits of [n], most significant first, put in front of [acc];
    [fuel] bounds the number of digits. *)
Fixpoint hex_go (fuel : nat) (n : Z) (acc : string) : string :=
  match fuel with
  | O => acc
  | S fuel' =>
      if decide (n = 0) then acc
      else hex_go fuel' (n / 16) (String (hex_digit (n mod 16)) acc)
  end.

Definition hex_digits (n : Z) : string :=
  if decide (n = 0) then "0" else hex_go (S (Z.to_nat (Z.log2 n))) n "".

(** [hex(n)] *)
Definition hex (n : Z) : string :=
  if decide (n < 0) then "-0x" +:+ hex_digits (- n) else "0x" +:+ hex_digits n.

Fixpoint zeros (k : nat) : string :=
  match k with
  | O => ""
  | S k' => String "0" (zeros k')
  end.

(** [s.zfill(width)]: zeros are put after a leading sign. *)
Definition zfill (width : nat) (s : string) : string :=
  if decide (width <= String.length s)%nat then s
  else
    let pad := zeros (width - String.length s) in
    match s with
    | String "+" r => String "+" (pad +:+ r)
    | String "-" r => String "-" (pad +:+ r)
    | _ => pad +:+ s
    end.

(** [s[-n:]] for [n > 0] *)
Definition last_chars (n : nat) (s : string) : string :=
  PyStr.drop (String.length s - n) s.

(** [request_id()].  [randint] is what [random.randint(1000*1000,
    1000*1000*1000)] would return and [getpid] what [os.getpid()] would
    return, were they called. *)
Definition request_id (randint : Z) (getpid : N) (g : globals)
  : globals * string :=
  let req_c := match req_c g with None => randint | Some c => c end in
  let pid := match pid g with None => pretty getpid | Some p => p end in
  let req_c := req_c + 1 in
  let req_id := req_c in
  let req_id := last_chars 8 (zfill 8 (PyStr.drop 2 (hex req_id))) in
  ({| req_c := Some req_c; pid := Some pid |}, pid +:+ "-" +:+ req_id).

(** [n] calls in a row; call [i] would get [randint i] and [getpid i]
    from the system. *)
Fixpoint request_ids (n i : nat) (randint : nat -> Z) (getpid : nat -> N)
    (g : globals) : list string :=
  match n with
  | O => []
  | S n' =>
      let '(g', rid) := request_id (randint i) (getpid i) g in
      rid :: request_ids n' (S i) randint getpid g'
  end.

End UniqueRequest.

(** The value of a text of hexadecimal digits, continuing from [v]. *)
Definition hex_digit_value (c : ascii) : Z :=
  match c with
  | "0" => 0 | "1" => 1 | "2" => 2 | "3" => 3 | "4" => 4 | "5" => 5
  | "6" => 6 | "7" => 7 | "8" => 8 | "9" => 9 | "a" => 10 | "b" => 11
  | "c" => 12 | "d" => 13 | "e" => 14 | "f" => 15 | _ => 0
  end%char.

Fixpoint hex_value (v : Z) (s : string) : Z :=
  match s with
  | "" => v
  | String c s' => hex_value (16 * v + hex_digit_value c) s'
  end.

(** A lower-case hexadecimal digit. *)
Definition is_hex (c : ascii) : bool := PyStr.mem c UniqueRequest.hex_alphabet.

(** The globals as they are when the module is loaded, or after some
    calls: the counter, once drawn, is at least the lower bound of the
    draw. *)
Definition counter_ok (g : UniqueRequest.globals) : Prop :=
  match UniqueRequest.req_c g with
  | Some c => 1000000 <= c
  | None => True
  end.

Definition fresh_globals : UniqueRequest.globals :=
  {| UniqueRequest.req_c := None; UniqueRequest.pid := None |}.

(** The eight characters that [request_id] makes of a counter. *)
Definition hex8 (c : Z) : string :=
  UniqueRequest.last_chars 8
    (UniqueRequest.zfill 8 (PyStr.drop 2 (UniqueRequest.hex c))).

(** A process that has served no request yet, on a system whose pid
    changes after the first call. *)
Definition pid_of_call (i : nat) : N := N.of_nat (4242 + i).

(** ** Reading a configured section *)

(** [configparser]'s reading of a boolean option; [None] where
    [getboolean] raises. *)
Definition parse_boolean (value : string) : option bool :=
  let v := PyStr.lower value in
  if decide (v ∈ ["1"; "yes"; "true"; "on"]) then Some true
  else if decide (v ∈ ["0"; "no"; "false"; "off"]) then Some false
  else None.

(** The filter that the sinks of a section get. *)
Definition section_filter (config_section : string) (section : Section_)
  : TachyonFilter :=
  if decide (config_section = "application" ∧ is_Some (section !! "name"))
  then {| app_name := section !! "name" |}
  else {| app_name := None |}.

(** Where the syslog sink of a section writes. *)
Definition syslog_sink (env : Env) (host : string) (port : pyval) : sink :=
  if decide (host = "127.0.0.1" ∨ PyStr.lower host = "localhost") then
    if is_socket env "/dev/log" then SysLogHandler "/dev/log"
    else if is_socket env "/var/run/syslog" then SysLogHandler "/var/run/syslog"
    else SysLogHandlerNet host port
  else SysLogHandlerNet host port.

(** The sinks that a section asks for: stdout, syslog, file. *)
Definition section_sinks (env : Env) (section : Section_) : list sink :=
  match parse_boolean <$> section !! "log_stdout" with
  | Some (Some true) => [StreamHandler]
  | _ => []
  end
  ++ match section !! "log_server" with
     | Some host =>
         [syslog_sink env host
            match section !! "log_server_port" with
            | Some p => VStr p
            | None => VInt 514
            end]
     | None => []
     end
  ++ match section !! "log_file" with
     | Some log_file => [FileHandler log_file]
     | None => []
     end.

(** A handler of a configured section. *)
Definition section_handler (flt : TachyonFilter) (s : sink) : Handler :=
  {| handler_sink := s; formatter := Some log_format; filters := [flt] |}.

(** The handler list holds no address below [n0], and none at or above
    the next free address. *)
Definition only_new (n0 : nat) (w : World) : Prop :=
  (n0 <= next w)%nat
  /\ Forall (fun a => (n0 <= a < next w)%nat) (handlers (logger w)).

(** The computation keeps [P], however it ends. *)
Definition keeps (P : World -> Prop) {A : Type} (m : M A) : Prop :=
  forall w : World, P w -> P (m w).1.

(** When the computation ends normally, it has attached handlers for
    [sinks], with the filter [flt], after the ones that were there. *)
Definition attaches (flt : TachyonFilter) {A : Type} (m : M A)
    (sinks : list sink) : Prop :=
  forall w : World,
    bounded w ->
    (exists a : A, (m w).2 = OK a) ->
    bounded (m w).1
    /\ attached (m w).1
       = attached w ++ map (fun s => Some (section_handler flt s)) sinks.

(** Configurations used below. *)
Definition shop_section : gmap string string :=
  <["log_stdout" := "Yes"]> (<["log_server" := "LocalHost"]>
    (<["log_file" := "/var/log/shop.log"]> (<["name" := "shop"]> ∅))).

Definition shop_config : gmap string (gmap string string) :=
  <["application" := shop_section]> ∅.



(** A machine with the [/dev/log] socket. *)
Definition devlog_env : Env :=
  {| is_socket := fun path => bool_decide (path = "/dev/log");
     can_open := fun _ => true |}.

(** A root logger with one handler. *)
Definition one_handler_world : World :=
  {| heap := <[0%nat := queue_handler]> ∅;
     next := 1;
     logger := {| name := "root"; level := 0;
                  handlers := [0%nat]; parent := None |} |}.

(** The two parts of [configure_section] that follow the reset of the
    handler list: lines 191-196, and lines 198-233. *)
Definition level_step (config_section : string) (section : Section_)
  : M unit :=
  match section !! "log_level" with
  | Some lvl => set_level (VStr lvl)
  | None =>
      if decide (config_section = "application")
      then set_level (VStr "WARNING") else skip
  end.

Definition sinks_step (env : Env) (config_section : string)
    (section : Section_) : M unit :=
  log_stdout ← getboolean section "log_stdout" false ;
  (if (log_stdout : bool) then
     handler ← new_handler env StreamHandler ;
     attach handler (section_filter config_section section)
   else skip) ;;
  match section !! "log_server" with
  | Some host =>
      let port := match section !! "log_server_port" with
                  | Some p => VStr p
                  | None => VInt 514
                  end in
      handler ← syslog_handler env host port ;
      attach handler (section_filter config_section section)
  | None => skip
  end ;;
  match section !! "log_file" with
  | Some log_file =>
      handler ← new_handler env (FileHandler log_file) ;
      attach handler (section_filter config_section section)
  | None => skip
  end.

(** ** luxon/core/logger.py: the loggers of the process *)

(** An entry of [logging.Logger.manager.loggerDict]. *)
Inductive node : Type :=
| LoggerNode (lg : Logger)
| PlaceHolder.

(** The logging state of the process: the store of handler objects and
    its next free address, the root logger, and [loggerDict] in
    insertion order. *)
Record Logging : Type := {
  store : gmap nat Handler;
  free : nat;
  root : Logger;
  loggerDict : list (string * node)
}.

(** Lines 349-357: [GetLogger.__init__(name)], run in the world of the
    logger that [logging.getLogger(name)] returns; [None] and the empty
    name are the names for which [not name] holds. *)
Definition GetLogger_init (env : Env) (name_ : option string) : M unit :=
  if decide (name_ = None ∨ name_ = Some "") then
    (* DEFAULT Set Stdout *)
    handler ← new_handler env StreamHandler ;
    addFilter handler {| app_name := None |} ;;
    addHandler handler ;;
    setFormatter handler simple_format
  else skip.

(** Lines 371-375: the loop over [loggerDict]; [hp] and [nx] are the
    store and its next free address.  An exception ends the loop. *)
Fixpoint configure_sub_loggers (env : Env) (config : Config)
    (hp : gmap nat Handler) (nx : nat) (d : list (string * node))
  : gmap nat Handler * nat * list (string * node) * result unit :=
  match d with
  | [] => (hp, nx, [], OK tt)
  | (logger_name, PlaceHolder) :: d' =>
      let '(hp', nx', d'', r) := configure_sub_loggers env config hp nx d' in
      (hp', nx', (logger_name, PlaceHolder) :: d'', r)
  | (logger_name, LoggerNode sub_logger) :: d' =>
      let '(w, r) :=
        configure env config logger_name
          {| heap := hp; next := nx; logger := sub_logger |} in
      match r with
      | OK _ =>
          let '(hp', nx', d'', r') :=
            configure_sub_loggers env config (heap w) (next w) d' in
          (hp', nx', (logger_name, LoggerNode (logger w)) :: d'', r')
      | Raise e =>
          (heap w, next w, (logger_name, LoggerNode (logger w)) :: d',
           Raise e)
      end
  end.

(** Lines 367-375: [GetLogger.configure(config)]. *)
Definition GetLogger_configure (env : Env) (config : Config) (L : Logging)
  : Logging * result unit :=
  (* Configure Root *)
  let '(w, r) :=
    configure env config "application"
      {| heap := store L; next := free L; logger := root L |} in
  match r with
  | OK _ =>
      (* Configure Sub-Loggers *)
      let '(hp, nx, d, r') :=
        configure_sub_loggers env config (heap w) (next w) (loggerDict L) in
      ({| store := hp; free := nx; root := logger w; loggerDict := d |}, r')
  | Raise e =>
      ({| store := heap w; free := next w; root := logger w;
          loggerDict := loggerDict L |}, Raise e)
  end.

(** The store below [n0] is as in [h0], and nothing below [n0] is
    free. *)
Definition frozen (n0 : nat) (h0 : gmap nat Handler) (w : World) : Prop :=
  (n0 <= next w)%nat
  /\ forall a : nat, (a < n0)%nat -> heap w !! a = h0 !! a.

(** A process with a bare root logger and two sub-loggers around a
    placeholder; only [luxon.db] has a section in [db_config]. *)
Definition bare_root : Logger :=
  {| name := "root"; level := WARNING; handlers := []; parent := None |}.

Definition app_logger : Logger :=
  {| name := "luxon.app"; level := DEBUG; handlers := [0%nat];
     parent := None |}.

Definition db_logger : Logger :=
  {| name := "luxon.db"; level := 0; handlers := [0%nat]; parent := None |}.

Definition some_logging : Logging :=
  {| store := <[0%nat := file_handler]> ∅;
     free := 1;
     root := bare_root;
     loggerDict := [("luxon", PlaceHolder);
                    ("luxon.app", LoggerNode app_logger);
                    ("luxon.db", LoggerNode db_logger)] |}.

Definition db_config : gmap string (gmap string string) :=
  <["luxon.db" := <["log_stdout" := "true"]> ∅]> ∅.

Definition bare_world : World :=
  {| heap := ∅; next := 0; logger := bare_root |}.

(** ** luxon/core/logger.py: [MPLogger] (lines 253-335) *)

(** One end of the socket pipe. *)
Definition conn : Type := nat.

(** The fields of an [MPLogger].  [_log_thread] is [None] until
    [receive] makes the process, and then tells whether its [start()]
    succeeded; [_server] is [None] where the attribute is never set. *)
Record MPLogger : Type := {
  _running : bool;
  _log_thread : option bool;
  _name : string;
  _client : option conn;
  _server : option conn
}.

(** Lines 273-274: [sub_logger.handlers = []] on a logger of
    [loggerDict]; placeholders are passed over. *)
Definition clear_handlers (nd : node) : node :=
  match nd with
  | LoggerNode sub_logger =>
      LoggerNode {| name := name sub_logger; level := level sub_logger;
                    handlers := []; parent := parent sub_logger |}
  | PlaceHolder => PlaceHolder
  end.

Section MPLoggerInit.

(** [logging.getLogger(name)], as far as it changes [loggerDict], and
    the two ends that [Pipe()] returns. *)
Variable getLogger : string -> list (string * node) -> list (string * node).
Variable Pipe : conn * conn.

(** Lines 256-276: [MPLogger.__init__(name, queue)]. *)
Definition MPLogger_init (name_ : string) (queue : option conn) (L : Logging)
  : Logging * result MPLogger :=
  if decide (name_ = "__main__") then
    ({| store := store L; free := free L; root := root L;
        loggerDict := getLogger name_ (loggerDict L) |},
     OK {| _running := false; _log_thread := None; _name := name_;
           _client := Some Pipe.2; _server := Some Pipe.1 |})
  else
    match queue with
    | None => (L, Raise (ValueError "MPLogger for Process requires queue"))
    | Some q =>
        ({| store := <[free L := queue_handler]> (store L);
            free := S (free L);
            root := {| name := name (root L); level := level (root L);
                       handlers := [free L]; parent := parent (root L) |};
            loggerDict :=
              getLogger name_
                (prod_map id clear_handlers <$> loggerDict L) |},
         OK {| _running := false; _log_thread := None; _name := name_;
               _client := Some q; _server := None |})
    end.

End MPLoggerInit.

(** Lines 324-329: [receive()]; [started] tells whether the [start()]
    of the new process succeeds. *)
Definition MPLogger_receive (started : bool) (self : MPLogger)
  : MPLogger * result unit :=
  if decide (_name self = "__main__") then
    ({| _running := _running self; _log_thread := Some started;
        _name := _name self; _client := _client self;
        _server := _server self |},
     if started then OK tt else Raise OSError)
  else (self, OK tt).

(** Lines 331-333: [close()].  [terminate()] needs a process that has
    been started; on [None] the attribute lookup fails. *)
Definition MPLogger_close (self : MPLogger) : MPLogger * result unit :=
  ({| _running := false; _log_thread := _log_thread self;
      _name := _name self; _client := _client self;
      _server := _server self |},
   match _log_thread self with
   | Some true => OK tt
   | _ => Raise AttributeError
   end).

(** The object after a run of [receive()] calls, exceptions caught by
    the caller. *)
Definition receives (starts : list bool) (self : MPLogger) : MPLogger :=
  foldl (fun obj started => (MPLogger_receive started obj).1) self starts.

(** The handler lists of the loggers of a [loggerDict]. *)
Definition handler_lists (d : list (string * node)) : list (list nat) :=
  omap (fun e => match e.2 with
                 | LoggerNode lg => Some (handlers lg)
                 | PlaceHolder => None
                 end) d.

(** What the model asks of [logging.getLogger]: a logger it makes has
    no handlers, and it changes the handlers of no other. *)
Definition getLogger_adds_no_handler
    (getLogger : string -> list (string * node) -> list (string * node))
  : Prop :=
  forall (name_ : string) (d : list (string * node)) (hs : list nat),
    hs ∈ handler_lists (getLogger name_ d) ->
    hs = [] \/ hs ∈ handler_lists d.

(** [logging.getLogger] on a name without dots that is not the root's:
    a logger of that name is returned as it is, a placeholder of that
    name gives way to a new logger, and a new name is entered last; the
    new logger has no handlers. *)
Fixpoint getLogger_flat (name_ : string) (d : list (string * node))
  : list (string * node) :=
  let rv := LoggerNode {| name := name_; level := 0; handlers := [];
                          parent := None |} in
  match d with
  | [] => [(name_, rv)]
  | (nm, nd) :: d' =>
      if decide (nm = name_) then
        (nm, match nd with LoggerNode _ => nd | PlaceHolder => rv end) :: d'
      else (nm, nd) :: getLogger_flat name_ d'
  end.

(** * Properties *)

(** ** Text lemmas *)

Lemma append_nil_r (s : string) : s +:+ "" = s.
Proof. induction s as [|c s IH]; [done|]. by rewrite <- IH at 2. Qed.

Lemma append_assoc (s t u : string) : (s +:+ t) +:+ u = s +:+ t +:+ u.
Proof.
  induction s as [|c s IH]; [done|].
  change (String c ((s +:+ t) +:+ u) = String c (s +:+ t +:+ u)).
  by rewrite IH.
Qed.

Lemma startswith_append (p s : string) : PyStr.startswith p (p +:+ s) = true.
Proof.
  induction p as [|c p IH]; [done|].
  change (PyStr.startswith (String c p) (String c (p +:+ s)) = true).
  simpl. by rewrite decide_True.
Qed.


Lemma join_empty_cons (x : string) (l : list string) :
  PyStr.join "" (x :: l) = x +:+ PyStr.join "" l.
Proof. destruct l; [by rewrite append_nil_r|done]. Qed.

Lemma get_mem (i : nat) (s : string) (c : ascii) :
  PyStr.get i s = Some c -> PyStr.mem c s = true.
Proof.
  revert i. induction s as [|d s IH]; intros i Hget;
    [by destruct i|].
  simpl. destruct (decide (c = d)); [done|].
  destruct i as [|i]; simpl in Hget; [congruence|by apply (IH i)].
Qed.

Lemma get_lt (i : nat) (s : string) :
  (i < String.length s)%nat -> is_Some (PyStr.get i s).
Proof.
  revert i. induction s as [|d s IH]; intros i Hi; simpl in *; [lia|].
  destruct i as [|i]; [by eexists|]. apply IH. lia.
Qed.

(** ** [string_id] *)

Lemma choice_alnum (r : nat) :
  exists c : ascii,
    Unique.choice r (Unique.ascii_letters +:+ Unique.digits) = String c ""
    /\ is_alnum c = true.
Proof.
  unfold Unique.choice.
  destruct (get_lt (r mod String.length (Unique.ascii_letters +:+ Unique.digits))
              (Unique.ascii_letters +:+ Unique.digits)) as [c Hc].
  { apply Nat.mod_upper_bound. by vm_compute. }
  exists c. rewrite Hc. split; [done|]. by apply get_mem in Hc.
Qed.

(** X9.  [string_id(length)] has [length] characters, all of them
    ASCII letters or digits, whatever the random generator draws. *)
Lemma string_id_alnum (n : nat) (rnd : nat -> nat) :
  String.length (Unique.string_id n rnd) = n
  /\ all_chars is_alnum (Unique.string_id n rnd) = true.
Proof.
  unfold Unique.string_id. generalize 0%nat as start.
  induction n as [|n IH]; intros start; [done|].
  cbn [seq map]. rewrite join_empty_cons.
  destruct (choice_alnum (rnd start)) as (c & -> & Hc).
  destruct (IH (S start)) as [Hlen Hall].
  change (String c "" +:+ ?s) with (String c s). simpl.
  by rewrite Hlen, Hc, Hall.
Qed.



(** ** [log_formatted] *)

Section LogFormattedFacts.

Variable format_seconds : Z -> string.
Variable list_of_lines : string -> list string.
Variable split_by_n : string -> nat -> list string.

Local Abbreviation log_formatted' :=
  (log_formatted format_seconds list_of_lines split_by_n).
Local Abbreviation chunks_of' := (chunks_of list_of_lines split_by_n).
Local Abbreviation with_duration' := (with_duration format_seconds).

Lemma chunk_loop_go (cid : string) (l : list string) :
  forall (k : nat) (acc : list string) (o : option nat),
    fold_left
      (fun st lp =>
         let '(line, p) := lp in
         let msg := "(" +:+ cid +:+ ") " +:+ PyStr.of_nat (line + 1)
                        +:+ "# " +:+ p in
         (fst st ++ [msg], Some line))
      (imap (fun i p => ((k + i)%nat, p)) l) (acc, o)
    = (acc ++ imap (fun i p => chunk_line cid (k + i) p) l,
       match l with [] => o | _ => Some (k + length l - 1)%nat end).
Proof.
  induction l as [|x l IH]; intros k acc o.
  - simpl. by rewrite app_nil_r.
  - simpl.
    rewrite (imap_ext _ (fun i p => ((S k + i)%nat, p)) l)
      by (intros; simpl; f_equal; lia).
    rewrite IH.
    rewrite (imap_ext (_ ∘ S) (fun i p => chunk_line cid (S k + i) p) l)
      by (intros; simpl; f_equal; lia).
    rewrite <- app_assoc. simpl. f_equal.
    + f_equal. f_equal. unfold chunk_line, id_tag.
      by rewrite !append_assoc.
    + destruct l; simpl; f_equal; lia.
Qed.

Lemma chunk_loop_eq (cid : string) (l : list string) :
  chunk_loop cid l
  = (imap (chunk_line cid) l,
     match l with [] => None | _ => Some (length l - 1)%nat end).
Proof.
  unfold chunk_loop.
  exact (chunk_loop_go cid l 0 [] None).
Qed.


(** C8. A message that is empty after stripping produces no line and no
    error, whatever the other arguments are, a [timer] included: the
    duration suffix is only added inside the guard. *)
Theorem log_formatted_empty_noop
    (rnd : nat -> nat) (ctx : option request_context) (message : string)
    (prepend append : option string) (timer : option Z)
    (log_id : option string) :
  PyStr.strip message = "" ->
  log_formatted' rnd ctx message prepend append timer log_id = OK [].
Proof.
  intros Hempty. unfold log_formatted. rewrite Hempty.
  by rewrite decide_False by (intros H; by apply H).
Qed.



End LogFormattedFacts.

(** The helper modules: a text without a line feed is one line, and a
    non-empty text no longer than [n] is one chunk. *)

Lemma list_of_lines_single (s : string) :
  single_line s -> Split.list_of_lines s = [s].
Proof.
  unfold single_line. induction s as [|c s IH]; [done|]. simpl.
  destruct (decide ("010"%char = c)) as [<-|Hc]; [done|]. intros Hs.
  rewrite decide_False by congruence. by rewrite IH.
Qed.

Lemma take_all (n : nat) (s : string) :
  (String.length s <= n)%nat -> PyStr.take n s = s.
Proof.
  revert n. induction s as [|c s IH]; intros [|n] Hn; simpl in *;
    try done; try lia.
  f_equal. apply IH. lia.
Qed.

Lemma drop_all (n : nat) (s : string) :
  (String.length s <= n)%nat -> PyStr.drop n s = "".
Proof.
  revert n. induction s as [|c s IH]; intros [|n] Hn; simpl in *;
    try done; try lia.
  apply IH. lia.
Qed.

Lemma split_by_n_single (s : string) (n : nat) :
  s <> "" -> (String.length s <= n)%nat -> Split.split_by_n s n = [s].
Proof.
  intros Hs Hn. unfold Split.split_by_n.
  destruct s as [|c s]; [done|].
  change (String.length (String c s)) with (S (String.length s)).
  cbn [Split.split_by_n_go].
  rewrite take_all, drop_all by done.
  by destruct (String.length s).
Qed.

Lemma with_duration_nonempty (fs : Z -> string) (s : string) (timer : option Z) :
  s <> "" -> with_duration fs s timer <> "".
Proof. destruct s, timer; done. Qed.

(** C5, as amended.  When the ASCII message is not empty once
    stripped, and its text (stripped, with the duration suffix if a
    [timer] is given) has no line feed and is at most 300 characters
    long, exactly one line is emitted; it starts with the tag of
    [log_id] if the caller passed one and has no tag otherwise: no id
    is drawn from the generator. *)
Theorem log_formatted_short_message
    (format_seconds : Z -> string)
    (rnd : nat -> nat) (ctx : option request_context) (message : string)
    (prepend append : option string) (timer : option Z)
    (log_id : option string) :
  let text := with_duration format_seconds (PyStr.strip message) timer in
  PyStr.isascii message = true ->
  PyStr.strip message <> "" ->
  single_line text ->
  (String.length text <= 300)%nat ->
  log_formatted format_seconds Split.list_of_lines Split.split_by_n
    rnd ctx message prepend append timer log_id
  = OK [match log_id with Some i => id_tag i | None => "" end
        +:+ match prepend with Some p => p +:+ " " | None => "" end
        +:+ text
        +:+ match append with Some a => " " +:+ a | None => "" end
        +:+ " " +:+ request_of ctx].
Proof.
  intros text _ Hne Hline Hlen.
  assert (Hch : chunks_of Split.list_of_lines Split.split_by_n text = [text]).
  { unfold chunks_of. rewrite list_of_lines_single by done. simpl.
    rewrite split_by_n_single; [done| |done].
    by apply with_duration_nonempty. }
  unfold log_formatted. rewrite decide_True by done.
  fold text. rewrite Hch. rewrite decide_False by (simpl; lia).
  change ([text] !! 0%nat) with (Some text).
  unfold id_tag.
  destruct log_id as [i|], prepend as [p|], append as [a|]; simpl;
    by rewrite ?append_assoc, ?append_nil_r.
Qed.

(** *** Concrete runs of [log_formatted] *)

Lemma log_formatted_empty_noop_witness :
  PyStr.strip "  " = ""
  /\ log_formatted_std (fun _ => 0%nat) None "  " (Some "pre") (Some "post")
       (Some 5) None = OK [].
Proof.
  split; [reflexivity|].
  apply log_formatted_empty_noop. reflexivity.
Defined.


(** With no [log_id] the batch is tagged with [string_id(6)]. *)
Example log_formatted_fresh_id :
  log_formatted_std (fun i => (7 * i)%nat) None two_lines None None None None
  = OK ["(ahovCJ) 1# ab"; "(ahovCJ) 2# cd"].
Proof. reflexivity. Qed.



(** Without a request context the line ends with the separator that
    precedes the (empty) context. *)
Example log_formatted_no_context :
  log_formatted_std (fun _ => 0%nat) None "hello" None None None None
  = OK ["hello "]
  /\ spec_single_line None None "hello" None (request_of None) = "hello".
Proof. split; reflexivity. Qed.

Lemma log_formatted_short_message_witness :
  PyStr.isascii " hello " = true
  /\ PyStr.strip " hello " <> ""
  /\ single_line (with_duration Formatting.format_seconds
                    (PyStr.strip " hello ") (Some 3))
  /\ (String.length (with_duration Formatting.format_seconds
                       (PyStr.strip " hello ") (Some 3%Z)) <= 300)%nat
  /\ log_formatted_std (fun _ => 0%nat) None " hello " None (Some "post")
       (Some 3) None
     = OK ["hello (DURATION: 3s) post "].
Proof.
  assert (H0 : PyStr.isascii " hello " = true) by reflexivity.
  assert (H1 : PyStr.strip " hello " <> "") by (vm_compute; discriminate).
  assert (H2 : single_line (with_duration Formatting.format_seconds
                              (PyStr.strip " hello ") (Some 3)))
    by reflexivity.
  assert (H3 : (String.length (with_duration Formatting.format_seconds
                                 (PyStr.strip " hello ") (Some 3%Z)) <= 300)%nat)
    by (vm_compute; lia).
  split; [exact H0|].
  split; [exact H1|]. split; [exact H2|]. split; [exact H3|].
  exact (log_formatted_short_message Formatting.format_seconds
           (fun _ => 0%nat) None " hello " None (Some "post") (Some 3) None
           H0 H1 H2 H3).
Defined.

(** C5 as stated fails.  The empty message is a single line shorter
    than the bound, and no line is emitted for it.  A message of 299
    characters is a single line shorter than the bound too, and with a
    [timer] its text, the duration suffix included, makes two chunks:
    two lines come out, tagged with a fresh id. *)
Lemma log_formatted_short_message_counterexample :
  (single_line ""
   /\ (String.length "" < 300)%nat
   /\ log_formatted_std (fun _ => 0%nat) None "" None None None None = OK [])
  /\ (single_line long_line
      /\ (String.length long_line < 300)%nat
      /\ exists l1 l2 : string,
           log_formatted_std (fun _ => 0%nat) None long_line None None
             (Some 3) None = OK [l1; l2]
           /\ carries_id "aaaaaa" l1 /\ carries_id "aaaaaa" l2).
Proof.
  split.
  - split; [reflexivity|]. split; [simpl; lia|]. reflexivity.
  - split; [by vm_compute|]. split; [vm_compute; lia|].
    eexists _, _. split; [by vm_compute|]. split; by vm_compute.
Qed.

(** ** [set_level] *)

Lemma is_space_upper_char (c : ascii) :
  PyStr.is_space (PyStr.upper_char c) = PyStr.is_space c.
Proof. by destruct c as [[] [] [] [] [] [] [] []]. Qed.

Lemma upper_empty (s : string) : PyStr.upper s = "" <-> s = "".
Proof. by destruct s. Qed.

Lemma lstrip_upper (s : string) :
  PyStr.lstrip (PyStr.upper s) = PyStr.upper (PyStr.lstrip s).
Proof.
  induction s as [|c s IH]; [done|].
  cbn [PyStr.upper PyStr.map_chars PyStr.lstrip].
  rewrite is_space_upper_char.
  by destruct (PyStr.is_space c).
Qed.

Lemma rstrip_upper (s : string) :
  PyStr.rstrip (PyStr.upper s) = PyStr.upper (PyStr.rstrip s).
Proof.
  induction s as [|c s IH]; [done|].
  cbn [PyStr.upper PyStr.map_chars PyStr.rstrip].
  fold (PyStr.upper s). rewrite IH, is_space_upper_char.
  destruct (PyStr.rstrip s) as [|d r]; simpl; [|done].
  by destruct (PyStr.is_space c).
Qed.

Lemma strip_upper (s : string) :
  PyStr.strip (PyStr.upper s) = PyStr.upper (PyStr.strip s).
Proof. unfold PyStr.strip. by rewrite lstrip_upper, rstrip_upper. Qed.

Lemma not_numeric_initial (c : ascii) (t : string) :
  PyStr.is_space c || level_initial c = true ->
  match c with
  | "+"%char => digits_value 0 false t
  | "-"%char => Z.opp <$> digits_value 0 false t
  | _ => digits_value 0 false (String c t)
  end = None.
Proof.
  destruct c as [[] [] [] [] [] [] [] []]; vm_compute; done.
Qed.

Lemma level_name_initial (t : string) :
  PyStr.upper t ∈ level_names ->
  exists c t', t = String c t' /\ level_initial c = true.
Proof.
  intros Hin. destruct t as [|c t'].
  - apply list_elem_of_In in Hin. simpl in Hin.
    destruct Hin as [H|[H|[H|[H|[H|[]]]]]]; discriminate H.
  - exists c, t'. split; [done|]. unfold level_initial.
    apply list_elem_of_In in Hin. simpl in Hin.
    cbn [PyStr.upper PyStr.map_chars] in Hin.
    destruct Hin as [H|[H|[H|[H|[H|[]]]]]]; injection H as H _;
      by rewrite <- H.
Qed.

Lemma int_space_is_space (c : ascii) :
  int_space c = true -> PyStr.is_space c = true.
Proof. by destruct c as [[] [] [] [] [] [] [] []]. Qed.

Lemma lstrip_int_lstrip (s : string) :
  PyStr.lstrip (int_lstrip s) = PyStr.lstrip s.
Proof.
  induction s as [|c s IH]; [done|]. simpl.
  destruct (int_space c) eqn:Hc; [|done].
  by rewrite (int_space_is_space c Hc).
Qed.

Lemma int_lstrip_head (s : string) :
  int_lstrip s = ""
  \/ exists c t, int_lstrip s = String c t /\ int_space c = false.
Proof.
  induction s as [|c s IH]; [by left|]. simpl.
  destruct (int_space c) eqn:Hc; [done|]. right. by exists c, s.
Qed.

Lemma int_rstrip_head (c : ascii) (t : string) :
  int_space c = false -> exists t', int_rstrip (String c t) = String c t'.
Proof.
  intros Hc. simpl. rewrite Hc. destruct (int_rstrip t); by eexists.
Qed.

Lemma rstrip_head (c : ascii) (t : string) :
  PyStr.is_space c = false ->
  exists t', PyStr.rstrip (String c t) = String c t'.
Proof.
  intros Hc. simpl. rewrite Hc. destruct (PyStr.rstrip t); by eexists.
Qed.

(** A text that is a level name after [upper] and [strip] is not a
    numeric literal: [int(level)] raises [ValueError] on it. *)
Lemma int_of_str_level_name (s : string) :
  PyStr.strip (PyStr.upper s) ∈ level_names -> int_of_str s = None.
Proof.
  rewrite strip_upper. intros Hin.
  apply level_name_initial in Hin as (c0 & t0 & Hs & Hc0).
  unfold int_of_str. destruct (_ <? _)%nat; [done|].
  destruct (int_lstrip_head s) as [->|(c & t & Hl & Hc)]; [done|].
  rewrite Hl. destruct (int_rstrip_head c t Hc) as [t' ->].
  apply not_numeric_initial.
  destruct (PyStr.is_space c) eqn:Hsp; [done|]. simpl.
  unfold PyStr.strip in Hs. rewrite <- lstrip_int_lstrip, Hl in Hs.
  simpl in Hs. rewrite Hsp in Hs.
  destruct (rstrip_head c t Hsp) as [t'' Hr]. rewrite Hr in Hs.
  by injection Hs as -> _.
Qed.

(** A text that [int] parses is ASCII. *)
Lemma digits_value_isascii (s : string) :
  forall (acc : Z) (after_digit : bool),
    is_Some (digits_value acc after_digit s) -> PyStr.isascii s = true.
Proof.
  induction s as [|c s IH]; intros acc after_digit Hs; [done|].
  cbn [digits_value] in Hs. cbn [PyStr.isascii].
  destruct (Ascii.is_nat c) eqn:Hd.
  - rewrite (IH _ _ Hs), andb_true_r.
    by destruct c as [[] [] [] [] [] [] [] []].
  - destruct (decide (c = "_"%char)) as [->|]; [|by destruct Hs].
    destruct after_digit; [|by destruct Hs]. by rewrite (IH _ _ Hs).
Qed.

Lemma isascii_int_rstrip (s : string) :
  PyStr.isascii (int_rstrip s) = true -> PyStr.isascii s = true.
Proof.
  induction s as [|c s IH]; [done|]. cbn [int_rstrip PyStr.isascii].
  destruct (int_rstrip s) as [|d r] eqn:Hr.
  - destruct (int_space c) eqn:Hc.
    + intros _. rewrite IH by done.
      by destruct c as [[] [] [] [] [] [] [] []].
    + cbn [PyStr.isascii]. rewrite IH by done. by rewrite andb_true_r.
  - cbn [PyStr.isascii]. intros H.
    apply andb_true_iff in H as [-> H]. by rewrite IH.
Qed.

Lemma isascii_int_lstrip (s : string) :
  PyStr.isascii (int_lstrip s) = true -> PyStr.isascii s = true.
Proof.
  induction s as [|c s IH]; [done|]. cbn [int_lstrip PyStr.isascii].
  destruct (int_space c) eqn:Hc; [|done].
  intros H. rewrite IH by done.
  by destruct c as [[] [] [] [] [] [] [] []].
Qed.

Lemma int_of_str_isascii (s : string) (n : Z) :
  int_of_str s = Some n -> PyStr.isascii s = true.
Proof.
  unfold int_of_str. destruct (_ <? _)%nat; [done|]. intros H.
  apply isascii_int_lstrip, isascii_int_rstrip.
  destruct (int_rstrip (int_lstrip s)) as [|c t]; [done|].
  assert (Hcases : is_Some (digits_value 0 false (String c t))
                   \/ (PyStr.isascii (String c "") = true
                       /\ is_Some (digits_value 0 false t))).
  { destruct c as [[] [] [] [] [] [] [] []];
      try (left; by rewrite H);
      right; (split; [done|]);
      destruct (digits_value 0 false t); by inversion H. }
  destruct Hcases as [Hd|[Hc Hd]].
  - by apply (digits_value_isascii _ 0 false).
  - cbn [PyStr.isascii] in Hc |- *. rewrite andb_true_r in Hc.
    by rewrite Hc, (digits_value_isascii _ 0 false Hd).
Qed.

Lemma logging_attr_level_name (nm : string) :
  nm ∈ level_names -> is_Some (logging_attr nm).
Proof.
  intros Hin. apply list_elem_of_In in Hin. simpl in Hin.
  destruct Hin as [<-|[<-|[<-|[<-|[<-|[]]]]]]; by eexists.
Qed.

(** C4, as amended.  [set_level] accepts an integer, a finite float
    (cut toward zero), a text that [int] parses, and a text that is one
    of the five level names after [upper] and [strip]: the logger's
    level is then set.  On every other ASCII text it raises
    [ValueError] with a message that ends with the logger's name, and
    the world, the logger's level included, is as before the call.  On
    [None] the error is the [TypeError] that [int] raises; the world is
    as before there too. *)
Theorem set_level_accepts_or_rejects (w : World) :
  (forall n : Z, set_level (VInt n) w = setLevel n w)
  /\ (forall m e : Z,
        exists n : Z,
          int_of_float (Finite m e) = OK n
          /\ set_level (VFloat (Finite m e)) w = setLevel n w)
  /\ (forall (s : string) (n : Z),
        int_of_str s = Some n -> set_level (VStr s) w = setLevel n w)
  /\ (forall s : string,
        PyStr.strip (PyStr.upper s) ∈ level_names ->
        exists r : Z,
          logging_attr (PyStr.strip (PyStr.upper s)) = Some r
          /\ set_level (VStr s) w = setLevel r w)
  /\ (forall s : string,
        PyStr.isascii s = true ->
        int_of_str s = None ->
        PyStr.strip (PyStr.upper s) ∉ level_names ->
        set_level (VStr s) w
        = (w, Raise (ValueError
                       ("Invalid logging level '"
                          +:+ PyStr.strip (PyStr.upper s)
                          +:+ "' for logger '" +:+ name (logger w) +:+ "'"))))
  /\ (exists msg : string, set_level VNone w = (w, Raise (TypeError msg))).
Proof.
  split; [done|]. split; [by eexists|]. split; [|split; [|split]].
  - intros s n Hn. unfold set_level. by rewrite Hn.
  - intros s Hin.
    destruct (logging_attr_level_name _ Hin) as [r Hr].
    exists r. split; [done|].
    unfold set_level. rewrite (int_of_str_level_name s Hin).
    rewrite decide_True by done. by rewrite Hr.
  - intros s _ Hint Hnot. unfold set_level. rewrite Hint.
    by rewrite decide_False by done.
  - by eexists.
Qed.

Lemma set_level_accepts_or_rejects_witness :
  int_of_str " 15 " = Some 15
  /\ set_level (VStr " 15 ") two_handler_world
     = setLevel 15 two_handler_world
  /\ PyStr.isascii (String "028" "5") = true
  /\ int_of_str (String "028" "5") = None
  /\ (PyStr.strip (PyStr.upper (String "028" "5")) ∉ level_names)
  /\ set_level (VStr (String "028" "5")) two_handler_world
     = (two_handler_world,
        Raise (ValueError "Invalid logging level '5' for logger 'root'")).
Proof.
  assert (H1 : int_of_str " 15 " = Some 15) by reflexivity.
  assert (H2 : PyStr.isascii (String "028" "5") = true) by reflexivity.
  assert (H3 : int_of_str (String "028" "5") = None) by reflexivity.
  assert (H4 : PyStr.strip (PyStr.upper (String "028" "5")) ∉ level_names).
  { intros Hin. apply list_elem_of_In in Hin. vm_compute in Hin.
    repeat (destruct Hin as [Hin|Hin]; [discriminate Hin|]). exact Hin. }
  destruct (set_level_accepts_or_rejects two_handler_world)
    as (_ & _ & Hnum & _ & Hbad & _).
  split; [exact H1|]. split; [exact (Hnum " 15 " 15 H1)|].
  split; [exact H2|]. split; [exact H3|]. split; [exact H4|].
  exact (Hbad (String "028" "5") H2 H3 H4).
Defined.

(** C4 as stated fails: not every value that is neither a numeric rank
    nor a level name gets an error that names the logger.  [None] is
    such a value; [set_level] passes on the [TypeError] of [int], whose
    message does not contain the logger's name. *)
Lemma set_level_accepts_or_rejects_counterexample :
  exists msg : string,
    set_level VNone two_handler_world
    = (two_handler_world, Raise (TypeError msg))
    /\ PyStr.contains (name (logger two_handler_world)) msg = false
    /\ forall n : Z,
         set_level VNone two_handler_world <> setLevel n two_handler_world.
Proof.
  eexists. split; [reflexivity|]. split; [by vm_compute|].
  intros n H. discriminate H.
Qed.

(** What [setLevel] does to the logger. *)
Lemma setLevel_spec (n : Z) (w : World) :
  exists w' : World,
    setLevel n w = (w', OK tt)
    /\ level (logger w') = n
    /\ name (logger w') = name (logger w)
    /\ handlers (logger w') = handlers (logger w).
Proof. by eexists. Qed.

Example set_level_examples :
  let w := two_handler_world in
  level (logger (set_level (VStr " info ") w).1) = INFO
  /\ level (logger (set_level (VStr "15") w).1) = 15
  /\ set_level (VStr "verbose") w
     = (w, Raise (ValueError "Invalid logging level 'VERBOSE' for logger 'root'")).
Proof. repeat split. Qed.

(** ** The emit operations of [GetLogger] *)

(** C7.  An emit operation whose severity ranks below the logger's
    effective level returns at once: [log_formatted] is not run and no
    line is handed on, whatever the arguments are. *)
Theorem emit_below_level_is_silent
    (format_seconds : Z -> string) (list_of_lines : string -> list string)
    (split_by_n : string -> nat -> list string)
    (self : Logger) (sev : severity) (a : emit_args) :
  rank sev < getEffectiveLevel self ->
  emit format_seconds list_of_lines split_by_n sev self a = OK [].
Proof.
  intros Hlt.
  destruct sev; unfold emit, critical, error, warning, info, debug;
    simpl in Hlt; by rewrite decide_False by lia.
Qed.

Lemma emit_below_level_is_silent_witness :
  rank SevInfo < getEffectiveLevel child_logger
  /\ emit Formatting.format_seconds Split.list_of_lines Split.split_by_n
       SevInfo child_logger hello_args = OK [].
Proof.
  assert (H : rank SevInfo < getEffectiveLevel child_logger)
    by (vm_compute; reflexivity).
  split; [exact H|].
  exact (emit_below_level_is_silent Formatting.format_seconds
           Split.list_of_lines Split.split_by_n child_logger SevInfo
           hello_args H).
Defined.

(** At or above the effective level the message is formatted. *)
Example emit_at_level :
  emit Formatting.format_seconds Split.list_of_lines Split.split_by_n
    SevError child_logger hello_args = OK ["hello "].
Proof. reflexivity. Qed.

(** ** [Cache.store] *)

(** C10.  [Cache.store] hands [reference] and [obj] to the backend as
    they are, with the expiry [min(expire, 604800)]. *)
Theorem store_clamps_expire
    {Reference Obj Backend : Type}
    (backend_store : Reference -> Obj -> Z -> Backend -> Backend)
    (self : Cache.Cache) (reference : Reference) (obj : Obj) (expire : Z) :
  Cache.store backend_store self reference obj expire
  = {| Cache._cached_backend :=
         backend_store reference obj (Z.min expire 604800)
           (Cache._cached_backend self) |}.
Proof.
  unfold Cache.store. f_equal. f_equal.
  destruct (decide (expire > 604800)); lia.
Qed.

Lemma store_above_bound
    {Reference Obj Backend : Type}
    (backend_store : Reference -> Obj -> Z -> Backend -> Backend)
    (self : Cache.Cache) (reference : Reference) (obj : Obj) (expire : Z) :
  604800 < expire ->
  Cache.store backend_store self reference obj expire
  = {| Cache._cached_backend :=
         backend_store reference obj 604800 (Cache._cached_backend self) |}.
Proof.
  intros H. unfold Cache.store. f_equal. f_equal.
  destruct (decide (expire > 604800)); lia.
Qed.

Lemma store_within_bound
    {Reference Obj Backend : Type}
    (backend_store : Reference -> Obj -> Z -> Backend -> Backend)
    (self : Cache.Cache) (reference : Reference) (obj : Obj) (expire : Z) :
  expire <= 604800 ->
  Cache.store backend_store self reference obj expire
  = {| Cache._cached_backend :=
         backend_store reference obj expire (Cache._cached_backend self) |}.
Proof.
  intros H. unfold Cache.store. f_equal. f_equal.
  destruct (decide (expire > 604800)); lia.
Qed.

(** A backend that records the calls it receives. *)
Example store_recorded :
  let record := fun (r : string) (o : string) (e : Z) calls => calls ++ [(r, o, e)] in
  Cache._cached_backend
    (Cache.store record
       (Cache.store record {| Cache._cached_backend := [] |} "k1" "v1" 700000)
       "k2" "v2" 60)
  = [("k1", "v1", 604800); ("k2", "v2", 60)].
Proof. reflexivity. Qed.

(** ** The receiver loop of [MPLogger] *)

Lemma inner_loop_progress (gets : list get_result) :
  forall (acts : list action) (e : inner_end) (rest : list get_result),
    inner_loop true gets = (acts, e, rest) ->
    e = Waiting \/ (e <> CondFalse /\ (length rest < length gets)%nat).
Proof.
  induction gets as [|g gets IH]; intros acts e rest Hrun; simpl in Hrun.
  - left. congruence.
  - destruct g as [[record|]| | |].
    + destruct (inner_loop true gets) as [[acts' e'] rest'] eqn:Hin.
      injection Hrun as <- <- <-.
      destruct (IH _ _ _ eq_refl) as [->|[Hne Hlt]]; [by left|right].
      split; [done|]. simpl. lia.
    + injection Hrun as <- <- <-. right. split; [done|]. simpl. lia.
    + injection Hrun as <- <- <-. right. split; [done|]. simpl. lia.
    + injection Hrun as <- <- <-. right. split; [done|]. simpl. lia.
    + injection Hrun as <- <- <-. right. split; [done|]. simpl. lia.
Qed.

Lemma outer_loop_enough (fuel : nat) :
  forall (_running : bool) (gets : list get_result),
    ((if _running then length gets + 2 else 1) <= fuel)%nat ->
    (outer_loop fuel _running gets).2 <> OutOfFuel.
Proof.
  induction fuel as [|fuel IH]; intros _running gets Hfuel.
  - destruct _running; lia.
  - destruct _running; simpl; [|done].
    destruct (inner_loop true gets) as [[acts e] rest] eqn:Hin.
    destruct (inner_loop_progress _ _ _ _ Hin) as [->|[Hne Hlt]]; [done|].
    destruct e; try done.
    + specialize (IH true rest).
      destruct (outer_loop fuel true rest) as [acts' r]. simpl in *.
      apply IH. lia.
    + specialize (IH false rest).
      destruct (outer_loop fuel false rest) as [acts' r]. simpl in *.
      apply IH. lia.
    + specialize (IH true rest).
      destruct (outer_loop fuel true rest) as [acts' r]. simpl in *.
      apply IH. lia.
Qed.

(** The receiver model always comes to an end of its own: the loop is
    left, or it sits in [queue.get()] with nothing more to come. *)
Lemma receiver_never_out_of_fuel (switch : switch_result)
    (gets : list get_result) :
  (receiver switch gets).2 <> OutOfFuel.
Proof.
  unfold receiver.
  pose proof (outer_loop_enough (length gets + 2) true gets) as Ht.
  pose proof (outer_loop_enough (length gets + 2) false gets) as Hf.
  destruct switch; simpl in *.
  - destruct (outer_loop _ true gets). simpl in *. apply Ht. lia.
  - destruct (outer_loop _ true gets). simpl in *. apply Ht. lia.
  - destruct (outer_loop _ false gets). simpl in *. apply Hf. lia.
Qed.

(** When the privilege switch did not fail, a sentinel at the head of
    the transport is taken off and the loop goes on exactly as it would
    have without it: [break] leaves the inner loop only, and
    [self._running] still holds at the outer test. *)
Lemma receiver_skips_sentinel (switch : switch_result)
    (gets : list get_result) :
  switch <> SwitchRaises ->
  receiver switch (Returns None :: gets)
  = (Get :: (receiver switch gets).1, (receiver switch gets).2).
Proof.
  intros Hsw. unfold receiver.
  destruct switch; [| |done].
  - change (length (Returns None :: gets) + 2)%nat
      with (S (length gets + 2)).
    cbn [outer_loop inner_loop].
    by destruct (outer_loop (length gets + 2) true gets).
  - change (length (Returns None :: gets) + 2)%nat
      with (S (length gets + 2)).
    cbn [outer_loop inner_loop].
    by destruct (outer_loop (length gets + 2) true gets).
Qed.

(** C1 fails on the code.  The sentinel is received first; the loop then
    calls [queue.get()] again, handles the record that arrives and calls
    [queue.get()] a third time, where it stays. *)
Theorem receiver_goes_on_after_sentinel :
  receiver NoUser [Returns None; Returns (Some late_record)]
  = ([Get; Get; Handle late_record; Get], Blocked)
  /\ receiver NoUser [Returns None] = ([Get; Get], Blocked)
  /\ gets_made (receiver NoUser [Returns None]).1 = 2%nat.
Proof. repeat split. Qed.

(** The other two ways out of the loop: an interrupt ends it, a failed
    privilege switch keeps it from starting. *)
Example receiver_interrupt_exits :
  receiver NoUser [Returns (Some late_record); RaisesInterrupt;
                   Returns (Some late_record)]
  = ([Get; Handle late_record; Get], Exited).
Proof. reflexivity. Qed.

Example receiver_switch_failure :
  receiver SwitchRaises [Returns (Some late_record)] = ([Stderr], Exited).
Proof. reflexivity. Qed.

(** ** [configure] *)

(** X15.  Where the clean-up loop meets at most one handler it does
    empty the list, and the logger is left with the default stdout
    handler only. *)
Lemma configure_absent_section_at_most_one
    (env : Env) (config : Config) (w : World) :
  config !! "application" = None ->
  can_open env StreamHandler = true ->
  (length (handlers (logger w)) <= 1)%nat ->
  attached (configure env config "application" w).1 = [Some default_stdout]
  /\ (configure env config "application" w).2 = OK tt.
Proof.
  intros Hcfg Hopen Hlen.
  destruct w as [hp nx [nm lv hs par]]. simpl in Hlen.
  unfold configure. rewrite decide_True by done. rewrite Hcfg.
  unfold configure_default, remove_handlers, mbind, M_bind, new_handler,
    skip, mret, M_ret.
  simpl. rewrite Hopen.
  destruct hs as [|h [|h' hs]]; [| |simpl in Hlen; lia].
  - simpl. unfold addHandler, attached. simpl.
    by rewrite !lookup_alter_eq, lookup_insert_eq.
  - simpl. unfold removeHandler, addHandler, attached, mbind, M_bind. simpl.
    rewrite decide_True by set_solver. simpl.
    destruct (decide (h = h)) as [_|]; [|done]. simpl.
    by rewrite !lookup_alter_eq, lookup_insert_eq.
Qed.

(** *** The section-present path does not depend on the prior handlers *)

Lemma related_skip : related skip.
Proof. by intros w1 w2 Hsim. Qed.

Lemma related_bind (R : World -> World -> Prop) {A B : Type}
    (m : M A) (f : A -> M B) :
  related_from R m -> (forall a : A, related (f a)) ->
  related_from R (m ≫= f).
Proof.
  intros Hm Hf w1 w2 Hsim. unfold mbind, M_bind.
  destruct (Hm w1 w2 Hsim) as (Hsim' & Hres & Hname).
  destruct (m w1) as [w1' r1], (m w2) as [w2' r2]. simpl in *. subst r2.
  destruct r1 as [a|e]; [|done].
  destruct (Hf a w1' w2' Hsim') as (Hs & Hr & Hn).
  split; [done|]. split; [done|]. congruence.
Qed.

Lemma related_setLevel (n : Z) : related (setLevel n).
Proof.
  intros w1 w2 (Ha & Hn & Hb1 & Hb2). by repeat split.
Qed.

Lemma related_set_level (v : pyval) : related (set_level v).
Proof.
  unfold set_level.
  destruct v as [n|f|s|];
    [apply related_setLevel| | |by intros w1 w2 Hsim].
  { destruct f as [m e|neg|]; simpl;
      [apply related_setLevel|by intros w1 w2 Hsim..]. }
  destruct (int_of_str s); [apply related_setLevel|].
  destruct (decide _) as [Hin|Hnot].
  - destruct (logging_attr _); [apply related_setLevel|].
    by intros w1 w2 Hsim.
  - intros w1 w2 Hsim. split; [done|]. unfold raise. simpl.
    destruct Hsim as (_ & -> & _). done.
Qed.

Lemma related_getboolean (section : Section_) (option : string) (fb : bool) :
  related (getboolean section option fb).
Proof.
  unfold getboolean. destruct (section !! option); [|by intros w1 w2 Hsim].
  repeat destruct (decide _); by intros w1 w2 Hsim.
Qed.

(** One sink: the handler is allocated at the next free address and
    appended to the logger's list. *)
Lemma attach_new_handler (env : Env) (s : sink) (flt : TachyonFilter)
    (w : World) :
  bounded w ->
  can_open env s = true ->
  let r := (new_handler env s ≫= fun handler => attach handler flt) w in
  r.2 = OK tt
  /\ attached r.1
     = attached w ++ [Some {| handler_sink := s; formatter := Some log_format;
                              filters := [flt] |}]
  /\ name (logger r.1) = name (logger w)
  /\ bounded r.1.
Proof.
  intros Hb Hopen.
  assert (Hfresh : next w ∉ handlers (logger w)).
  { intros Hin. unfold bounded in Hb. rewrite Forall_forall in Hb.
    specialize (Hb _ Hin). lia. }
  unfold mbind, M_bind, new_handler, attach, mbind, M_bind. rewrite Hopen.
  unfold setFormatter, addFilter, addHandler. simpl.
  rewrite decide_False by done. simpl.
  split; [done|]. split; [|split; [done|]].
  - unfold attached. simpl. rewrite map_app. simpl.
    rewrite !lookup_alter_eq, lookup_insert_eq. simpl. f_equal.
    apply map_ext_in. intros a Hin%list_elem_of_In.
    assert (a <> next w) by (intros ->; done).
    by rewrite !lookup_alter_ne, lookup_insert_ne.
  - unfold bounded in *. simpl. apply Forall_app. split.
    + eapply Forall_impl; [exact Hb|]. simpl. lia.
    + apply Forall_singleton. lia.
Qed.

Lemma related_attach_new_handler (env : Env) (s : sink) (flt : TachyonFilter) :
  related (new_handler env s ≫= fun handler => attach handler flt).
Proof.
  intros w1 w2 (Ha & Hn & Hb1 & Hb2).
  destruct (can_open env s) eqn:Hopen.
  - destruct (attach_new_handler env s flt w1 Hb1 Hopen) as (R1 & A1 & N1 & B1).
    destruct (attach_new_handler env s flt w2 Hb2 Hopen) as (R2 & A2 & N2 & B2).
    split; [|split; [congruence|done]].
    repeat split; [congruence|congruence|done|done].
  - unfold mbind, M_bind, new_handler. rewrite Hopen. simpl.
    by repeat split.
Qed.

Lemma related_syslog (env : Env) (host : string) (port : pyval)
    (flt : TachyonFilter) :
  related (syslog_handler env host port ≫= fun handler => attach handler flt).
Proof.
  unfold syslog_handler.
  destruct (decide _);
    [destruct (is_socket env "/dev/log");
     [|destruct (is_socket env "/var/run/syslog")]|];
    apply related_attach_new_handler.
Qed.

(** After the handlers are reset, nothing of the prior world matters
    but the logger's name. *)
Lemma configure_section_forgets (env : Env) (config_section : string)
    (section : Section_) (w1 w2 : World) :
  name (logger w1) = name (logger w2) ->
  sim (configure_section env config_section section w1).1
    (configure_section env config_section section w2).1
  /\ (configure_section env config_section section w1).2
     = (configure_section env config_section section w2).2
  /\ name (logger (configure_section env config_section section w1).1)
     = name (logger w1).
Proof.
  intros Hname. revert w1 w2 Hname.
  change (related_from same_name
            (configure_section env config_section section)).
  unfold configure_section.
  apply related_bind; [|intros _].
  { intros w1 w2 Hname. split; [|done]. split; [done|].
    split; [exact Hname|]. split; apply Forall_nil_2. }
  apply related_bind; [|intros _].
  { destruct (section !! "log_level"); [apply related_set_level|].
    destruct (decide _); [apply related_set_level|apply related_skip]. }
  apply related_bind; [apply related_getboolean|intros log_stdout].
  apply related_bind; [|intros _].
  { destruct log_stdout;
      [apply related_attach_new_handler|apply related_skip]. }
  apply related_bind; [|intros _].
  { destruct (section !! "log_server");
      [apply related_syslog|apply related_skip]. }
  destruct (section !! "log_file");
    [apply related_attach_new_handler|apply related_skip].
Qed.

(** X14.  In the section-present path [configure] is idempotent: the
    sinks and the outcome of a second call with the same section are
    those of the first. *)
Lemma configure_present_idempotent (env : Env) (config : Config)
    (config_section : string) (section : Section_) (w : World) :
  config !! config_section = Some section ->
  attached (configure env config config_section
              (configure env config config_section w).1).1
  = attached (configure env config config_section w).1
  /\ (configure env config config_section
        (configure env config config_section w).1).2
     = (configure env config config_section w).2.
Proof.
  intros Hcfg.
  assert (Heq : forall w', configure env config config_section w'
                           = configure_section env config_section section w').
  { intros w'. unfold configure. rewrite Hcfg.
    by rewrite decide_False by (intros [_ ?]; done). }
  rewrite !Heq.
  destruct (configure_section_forgets env config_section section w w eq_refl)
    as (_ & _ & Hn).
  by destruct (configure_section_forgets env config_section section
                 (configure_section env config_section section w).1 w Hn)
    as ((Ha & _) & Hr & _).
Qed.

(** *** What the clean-up loop of the default path removes *)

Lemma with_handlers_same (w : World) :
  with_handlers (handlers (logger w)) w = w.
Proof. by destruct w as [hp nx [nm lv hs par]]. Qed.

Lemma with_handlers_twice (hs hs' : list nat) (w : World) :
  with_handlers hs (with_handlers hs' w) = with_handlers hs w.
Proof. done. Qed.

Lemma list_remove_middle (x : nat) (p q : list nat) :
  x ∉ p -> list_remove x (p ++ x :: q) = p ++ q.
Proof.
  induction p as [|y p IH]; intros Hx; simpl.
  - by rewrite decide_True.
  - rewrite decide_False by set_solver. f_equal. apply IH. set_solver.
Qed.

Lemma remove_handlers_loop_spec (fuel : nat) :
  forall (q p : list nat) (w : World),
    handlers (logger w) = p ++ q ->
    NoDup (p ++ q) ->
    (length q <= fuel)%nat ->
    remove_handlers_loop fuel (length p) w
    = (with_handlers (p ++ every_other q) w, OK tt).
Proof.
  induction fuel as [|fuel IH]; intros q p w Hw Hnd Hfuel.
  - destruct q; [|simpl in Hfuel; lia]. simpl.
    rewrite app_nil_r in *. rewrite <- Hw. by rewrite with_handlers_same.
  - simpl. rewrite Hw.
    destruct q as [|x q].
    { rewrite app_nil_r, lookup_ge_None_2 by done. simpl.
      rewrite app_nil_r in *. rewrite <- Hw. by rewrite with_handlers_same. }
    rewrite list_lookup_middle by done.
    apply NoDup_app in Hnd as (Hp & Hpq & Hq).
    apply NoDup_cons in Hq as (Hxq & Hq).
    assert (Hxp : x ∉ p) by (intros Hin; apply (Hpq x Hin); left).
    unfold mbind, M_bind, removeHandler. rewrite Hw.
    rewrite decide_True by set_solver.
    rewrite list_remove_middle by done.
    change (set_handlers (p ++ q) w) with (with_handlers (p ++ q) w, OK tt).
    destruct q as [|y r].
    { destruct fuel; simpl.
      - done.
      - rewrite app_nil_r, lookup_ge_None_2 by (simpl; lia). done. }
    replace (S (length p)) with (length (p ++ [y]))
      by (rewrite length_app; simpl; lia).
    rewrite (IH r (p ++ [y])).
    + rewrite with_handlers_twice. by rewrite <- app_assoc.
    + simpl. by rewrite <- app_assoc.
    + rewrite <- app_assoc. simpl. apply NoDup_app. split; [done|].
      split; [|done].
      intros a Ha Hin. apply (Hpq a Ha). by right.
    + simpl in Hfuel. lia.
Qed.

Lemma every_other_subseteq (l : list nat) :
  (forall a : nat, a ∈ every_other l -> a ∈ l)
  /\ (forall x a : nat, a ∈ every_other (x :: l) -> a ∈ x :: l).
Proof.
  induction l as [|y l [IH1 IH2]].
  - split; [intros a Ha|intros x a Ha]; simpl in Ha; by apply elem_of_nil in Ha.
  - split; [by apply IH2|]. intros x a Ha.
    change (a ∈ y :: every_other l) in Ha.
    apply elem_of_cons in Ha as [->|Ha]; [set_solver|].
    apply IH1 in Ha. set_solver.
Qed.

Lemma every_other_length (l : list nat) :
  length (every_other l) = Nat.div2 (length l)
  /\ forall x : nat, length (every_other (x :: l)) = Nat.div2 (S (length l)).
Proof.
  induction l as [|y l [IH1 IH2]]; [done|].
  split; [apply IH2|]. intros x. simpl. by rewrite IH1.
Qed.

Lemma remove_handlers_spec (w : World) :
  NoDup (handlers (logger w)) ->
  remove_handlers w
  = (with_handlers (every_other (handlers (logger w))) w, OK tt).
Proof.
  intros Hnd. unfold remove_handlers.
  exact (remove_handlers_loop_spec _ (handlers (logger w)) [] w eq_refl Hnd
           (le_n _)).
Qed.

(** The default path, for any duplicate-free list of prior handlers
    that lie in the store: the handlers at the odd positions stay, and
    the default stdout handler is added after them. *)
Lemma configure_absent_section_spec
    (env : Env) (config : Config) (w : World) :
  config !! "application" = None ->
  can_open env StreamHandler = true ->
  NoDup (handlers (logger w)) ->
  bounded w ->
  attached (configure env config "application" w).1
  = map (fun a => heap w !! a) (every_other (handlers (logger w)))
    ++ [Some default_stdout]
  /\ (configure env config "application" w).2 = OK tt.
Proof.
  intros Hcfg Hopen Hnd Hb.
  assert (Hfresh : next w ∉ every_other (handlers (logger w))).
  { intros Hin. apply every_other_subseteq in Hin.
    unfold bounded in Hb. rewrite Forall_forall in Hb.
    specialize (Hb _ Hin). lia. }
  assert (Hrun : exists w' : World,
             configure env config "application" w = (w', OK tt)
             /\ handlers (logger w')
                = every_other (handlers (logger w)) ++ [next w]
             /\ heap w' !! next w = Some default_stdout
             /\ forall a : nat, a <> next w -> heap w' !! a = heap w !! a).
  { unfold configure. rewrite decide_True by done. rewrite Hcfg.
    unfold configure_default, mbind, M_bind.
    rewrite remove_handlers_spec by done.
    unfold new_handler. simpl. rewrite Hopen.
    unfold addHandler. simpl. rewrite decide_False by done. simpl.
    eexists. split; [reflexivity|]. simpl. split; [done|]. split.
    - by rewrite !lookup_alter_eq, lookup_insert_eq.
    - intros a Ha. by rewrite !lookup_alter_ne, lookup_insert_ne. }
  destruct Hrun as (w' & -> & Hhs & Hnew & Hold). simpl. split; [|done].
  unfold attached. rewrite Hhs, map_app. simpl. rewrite Hnew. f_equal.
  apply map_ext_in. intros a Hin%list_elem_of_In.
  apply Hold. by intros ->.
Qed.

(** C9 fails on the code.  The root logger holds two handlers and the
    configuration has no [application] section.  The loop that is meant
    to clean the handlers removes the first one only: the iterator then
    stands at position 1 of a list of length 1 and stops.  The second
    handler stays, next to the new stdout handler. *)
Theorem configure_absent_section_leaves_handler :
  handlers (logger (configure plain_env ∅ "application" two_handler_world).1)
  = [1%nat; 2%nat]
  /\ attached (configure plain_env ∅ "application" two_handler_world).1
     = [Some file_handler; Some default_stdout]
  /\ (configure plain_env ∅ "application" two_handler_world).2 = OK tt.
Proof. vm_compute. repeat split. Qed.

(** C3 fails on the code, for the same reason.  From the same world,
    configuring once leaves the file handler and a stdout handler;
    configuring a second time leaves two stdout handlers. *)
Theorem configure_absent_section_twice :
  attached (configure plain_env ∅ "application" two_handler_world).1
  = [Some file_handler; Some default_stdout]
  /\ attached (configure plain_env ∅ "application"
                 (configure plain_env ∅ "application" two_handler_world).1).1
     = [Some default_stdout; Some default_stdout]
  /\ attached (configure plain_env ∅ "application"
                 (configure plain_env ∅ "application" two_handler_world).1).1
     <> attached (configure plain_env ∅ "application" two_handler_world).1.
Proof. vm_compute. repeat split. discriminate. Qed.

(** From a duplicate-free list of [n] prior handlers the default path
    leaves [n / 2 + 1] sinks: one sink exactly when [n <= 1]. *)
Lemma configure_absent_section_count
    (env : Env) (config : Config) (w : World) :
  config !! "application" = None ->
  can_open env StreamHandler = true ->
  NoDup (handlers (logger w)) ->
  bounded w ->
  length (attached (configure env config "application" w).1)
  = S (Nat.div2 (length (handlers (logger w)))).
Proof.
  intros Hcfg Hopen Hnd Hb.
  destruct (configure_absent_section_spec env config w Hcfg Hopen Hnd Hb)
    as [-> _].
  rewrite length_app, length_map.
  destruct (every_other_length (handlers (logger w))) as [-> _].
  simpl. lia.
Qed.

(** ** More on the receiver loop *)

Lemma outer_loop_turns (gets : list get_result) :
  forall fuel : nat,
    (length gets + 2 <= fuel)%nat -> outer_loop fuel true gets = turns gets.
Proof.
  induction gets as [|g gets IH]; intros fuel Hfuel.
  - destruct fuel as [|fuel]; [simpl in Hfuel; lia|]. reflexivity.
  - destruct fuel as [|fuel]; [simpl in Hfuel; lia|].
    simpl in Hfuel.
    destruct g as [[record|]| | |].
    + specialize (IH (S fuel) ltac:(lia)).
      cbn [outer_loop inner_loop turns]. cbn [outer_loop] in IH.
      destruct (inner_loop true gets) as [[acts e] rest].
      rewrite <- IH.
      destruct e; [..|done]; by destruct (outer_loop fuel _ rest).
    + cbn [outer_loop inner_loop turns]. rewrite (IH fuel) by lia.
      by destruct (turns gets).
    + cbn [outer_loop inner_loop turns]. rewrite (IH fuel) by lia.
      by destruct (turns gets).
    + cbn [outer_loop inner_loop turns].
      destruct fuel as [|fuel]; [lia|]. reflexivity.
    + cbn [outer_loop inner_loop turns]. rewrite (IH fuel) by lia.
      by destruct (turns gets).
Qed.

Lemma receiver_turns (switch : switch_result) (gets : list get_result) :
  switch <> SwitchRaises -> receiver switch gets = turns gets.
Proof.
  intros Hsw. unfold receiver.
  destruct switch; [| |done];
    rewrite outer_loop_turns by lia; by destruct (turns gets).
Qed.

Lemma turns_handled (gets : list get_result) :
  no_sentinel gets = true ->
  handled (turns gets).1 = delivered (before_interrupt gets)
  /\ reports (turns gets).1 = failures (before_interrupt gets)
  /\ gets_made (turns gets).1 = S (length (before_interrupt gets))
  /\ (turns gets).2 = if interrupted gets then Exited else Blocked.
Proof.
  induction gets as [|g gets IH]; intros Hns; [done|].
  destruct g as [[record|]| | |]; simpl in Hns; try done;
    destruct (IH Hns) as (H1 & H2 & H3 & H4); simpl;
    by rewrite ?H1, ?H2, ?H3, ?H4.
Qed.

(** X1.  On a transport that delivers no sentinel, and after a
    privilege switch that did not fail, the receiver hands every record
    that arrives before the first interrupt to its logger, once and in
    the order of arrival; a malformed object or a failing read in
    between costs one report on stderr each and does not stop the
    loop. *)
Theorem receiver_handles_all_records
    (switch : switch_result) (gets : list get_result) :
  switch <> SwitchRaises ->
  no_sentinel gets = true ->
  handled (receiver switch gets).1 = delivered (before_interrupt gets)
  /\ reports (receiver switch gets).1 = failures (before_interrupt gets).
Proof.
  intros Hsw Hns. rewrite receiver_turns by done.
  by destruct (turns_handled gets Hns) as (H1 & H2 & _).
Qed.

Lemma receiver_handles_all_records_witness :
  NoUser <> SwitchRaises
  /\ no_sentinel busy_transport = true
  /\ handled (receiver NoUser busy_transport).1 = [early_record; late_record]
  /\ reports (receiver NoUser busy_transport).1 = 2%nat.
Proof.
  assert (H1 : NoUser <> SwitchRaises) by discriminate.
  assert (H2 : no_sentinel busy_transport = true) by reflexivity.
  split; [exact H1|]. split; [exact H2|].
  exact (receiver_handles_all_records NoUser busy_transport H1 H2).
Defined.

(** X2.  Under the same conditions the receiver leaves its loop exactly
    when a KeyboardInterrupt or SystemExit is raised, and it reads
    nothing after that; without one it reads everything and then waits
    in [queue.get()].  It calls [queue.get()] once for every result
    before the interrupt and once more. *)
Theorem receiver_ends_on_interrupt
    (switch : switch_result) (gets : list get_result) :
  switch <> SwitchRaises ->
  no_sentinel gets = true ->
  (receiver switch gets).2 = (if interrupted gets then Exited else Blocked)
  /\ gets_made (receiver switch gets).1 = S (length (before_interrupt gets)).
Proof.
  intros Hsw Hns. rewrite receiver_turns by done.
  by destruct (turns_handled gets Hns) as (_ & _ & H3 & H4).
Qed.

Lemma receiver_ends_on_interrupt_witness :
  Switched <> SwitchRaises
  /\ no_sentinel busy_transport = true
  /\ (receiver Switched busy_transport).2 = Exited
  /\ gets_made (receiver Switched busy_transport).1 = 5%nat.
Proof.
  assert (H1 : Switched <> SwitchRaises) by discriminate.
  assert (H2 : no_sentinel busy_transport = true) by reflexivity.
  split; [exact H1|]. split; [exact H2|].
  exact (receiver_ends_on_interrupt Switched busy_transport H1 H2).
Defined.

(** ** More on [log_formatted] and the emit operations *)

Section LogFormattedMore.

Variable format_seconds : Z -> string.
Variable list_of_lines : string -> list string.
Variable split_by_n : string -> nat -> list string.

Local Abbreviation log_formatted' :=
  (log_formatted format_seconds list_of_lines split_by_n).
Local Abbreviation chunks_of' := (chunks_of list_of_lines split_by_n).
Local Abbreviation with_duration' := (with_duration format_seconds).

(** X3.  [log_formatted] raises in one situation only: the text is not
    empty and the splitting helpers return no chunk for it; [message[0]]
    then raises [IndexError].  In every other case it returns normally;
    in particular the loop variable [line] is bound whenever the
    trailing line reads it. *)
Theorem log_formatted_raises_only_without_chunk
    (rnd : nat -> nat) (ctx : option request_context) (message : string)
    (prepend append : option string) (timer : option Z)
    (log_id : option string) :
  (PyStr.strip message <> ""
   /\ chunks_of' (with_duration' (PyStr.strip message) timer) = []
   /\ log_formatted' rnd ctx message prepend append timer log_id
      = Raise IndexError)
  \/ (~ (PyStr.strip message <> ""
         /\ chunks_of' (with_duration' (PyStr.strip message) timer) = [])
      /\ exists lines : list string,
           log_formatted' rnd ctx message prepend append timer log_id
           = OK lines).
Proof.
  unfold log_formatted.
  destruct (decide (PyStr.strip message <> "")) as [Hne|He];
    [|right; split; [tauto|by eexists]].
  destruct (chunks_of' (with_duration' (PyStr.strip message) timer))
    as [|c0 [|c1 chunks]] eqn:Hch.
  - left. done.
  - right. split; [intros [_ ?]; done|]. by eexists.
  - right. split; [intros [_ ?]; done|].
    rewrite decide_True by (simpl; lia). rewrite chunk_loop_eq.
    destruct append; by eexists.
Qed.


End LogFormattedMore.


Lemma getEffectiveLevel_own_level (lg : Logger) :
  level lg <> 0 -> getEffectiveLevel lg = level lg.
Proof. destruct lg as [nm lv hs par]. simpl. intros H. by rewrite decide_True. Qed.

(** X5.  Setting a logger's level by one of the five names, in any case
    and with blanks around it, opens the emit operations of that
    severity and above and closes the ones below, whatever level the
    logger or its ancestors had before. *)
Theorem set_level_name_gates_emit
    (format_seconds : Z -> string) (list_of_lines : string -> list string)
    (split_by_n : string -> nat -> list string)
    (w : World) (s : string) (sev : severity) (a : emit_args) :
  PyStr.strip (PyStr.upper s) ∈ level_names ->
  exists r : Z,
    logging_attr (PyStr.strip (PyStr.upper s)) = Some r
    /\ (set_level (VStr s) w).2 = OK tt
    /\ emit format_seconds list_of_lines split_by_n sev
         (logger (set_level (VStr s) w).1) a
       = if decide (r <= rank sev)
         then format format_seconds list_of_lines split_by_n a
         else OK [].
Proof.
  intros Hin.
  destruct (logging_attr_level_name _ Hin) as [r Hr].
  exists r. split; [done|].
  unfold set_level. rewrite (int_of_str_level_name s Hin).
  rewrite decide_True by done. rewrite Hr. split; [done|].
  assert (Hr0 : r <> 0).
  { apply list_elem_of_In in Hin. simpl in Hin.
    destruct Hin as [H|[H|[H|[H|[H|[]]]]]]; rewrite <- H in Hr;
      vm_compute in Hr; congruence. }
  assert (Heff : getEffectiveLevel (logger (setLevel r w).1) = r)
    by by apply getEffectiveLevel_own_level.
  destruct sev; unfold emit, critical, error, warning, info, debug;
    rewrite Heff; reflexivity.
Qed.

Lemma set_level_name_gates_emit_witness :
  PyStr.strip (PyStr.upper " Error ") ∈ level_names
  /\ emit Formatting.format_seconds Split.list_of_lines Split.split_by_n
       SevInfo (logger (set_level (VStr " Error ") two_handler_world).1)
       hello_args = OK []
  /\ emit Formatting.format_seconds Split.list_of_lines Split.split_by_n
       SevCritical (logger (set_level (VStr " Error ") two_handler_world).1)
       hello_args = OK ["hello "].
Proof.
  assert (H : PyStr.strip (PyStr.upper " Error ") ∈ level_names).
  { apply list_elem_of_In. vm_compute. tauto. }
  split; [exact H|].
  destruct (set_level_name_gates_emit Formatting.format_seconds
              Split.list_of_lines Split.split_by_n two_handler_world
              " Error " SevInfo hello_args H) as (r1 & Hr1 & _ & He1).
  destruct (set_level_name_gates_emit Formatting.format_seconds
              Split.list_of_lines Split.split_by_n two_handler_world
              " Error " SevCritical hello_args H) as (r2 & Hr2 & _ & He2).
  vm_compute in Hr1. injection Hr1 as <-.
  vm_compute in Hr2. injection Hr2 as <-.
  split; [exact He1|exact He2].
Defined.

(** ** [request_id] *)

Lemma length_append (a b : string) :
  String.length (a +:+ b) = (String.length a + String.length b)%nat.
Proof.
  induction a as [|c a IH]; [done|].
  change (S (String.length (a +:+ b)) = S (String.length a + String.length b)).
  by rewrite IH.
Qed.

Lemma take_drop (n : nat) (s : string) : PyStr.take n s +:+ PyStr.drop n s = s.
Proof.
  revert n. induction s as [|c s IH]; intros [|n]; try done.
  change (String c (PyStr.take n s +:+ PyStr.drop n s) = String c s).
  by rewrite IH.
Qed.

Lemma length_drop (n : nat) (s : string) :
  String.length (PyStr.drop n s) = (String.length s - n)%nat.
Proof.
  revert n. induction s as [|c s IH]; intros [|n]; try done. apply IH.
Qed.

Lemma all_chars_append (f : ascii -> bool) (a b : string) :
  all_chars f (a +:+ b) = all_chars f a && all_chars f b.
Proof.
  induction a as [|c a IH]; [done|].
  change (f c && all_chars f (a +:+ b) = f c && all_chars f a && all_chars f b).
  rewrite IH. by destruct (f c).
Qed.

Lemma all_chars_drop (f : ascii -> bool) (n : nat) (s : string) :
  all_chars f s = true -> all_chars f (PyStr.drop n s) = true.
Proof.
  intros Hs. rewrite <- (take_drop n s), all_chars_append in Hs.
  by apply andb_true_iff in Hs as [_ ?].
Qed.

Lemma hex_value_append (v : Z) (a b : string) :
  hex_value v (a +:+ b) = hex_value (hex_value v a) b.
Proof.
  revert v. induction a as [|c a IH]; intros v; [done|].
  change (hex_value (16 * v + hex_digit_value c) (a +:+ b)
          = hex_value (hex_value (16 * v + hex_digit_value c) a) b).
  apply IH.
Qed.

Lemma hex_value_shift (s : string) :
  forall v : Z,
    hex_value v s = v * 16 ^ Z.of_nat (String.length s) + hex_value 0 s.
Proof.
  induction s as [|c s IH]; intros v; [simpl; lia|].
  cbn [hex_value String.length].
  rewrite (IH (16 * v + hex_digit_value c)), (IH (16 * 0 + hex_digit_value c)).
  rewrite Nat2Z.inj_succ, Z.pow_succ_r by lia. lia.
Qed.

Lemma hex_digit_value_bound (c : ascii) : 0 <= hex_digit_value c < 16.
Proof. destruct c as [[] [] [] [] [] [] [] []]; vm_compute; by split. Qed.

Lemma hex_value_bound (s : string) :
  0 <= hex_value 0 s < 16 ^ Z.of_nat (String.length s).
Proof.
  induction s as [|c s IH]; [simpl; lia|].
  cbn [hex_value String.length].
  rewrite hex_value_shift, Nat2Z.inj_succ, Z.pow_succ_r by lia.
  pose proof (hex_digit_value_bound c).
  pose proof (Z.pow_pos_nonneg 16 (Z.of_nat (String.length s))).
  nia.
Qed.

Lemma hex_digit_spec (d : Z) :
  0 <= d < 16 ->
  is_hex (UniqueRequest.hex_digit d) = true
  /\ hex_digit_value (UniqueRequest.hex_digit d) = d.
Proof.
  intros Hd.
  assert (Hcases : d = 0 \/ d = 1 \/ d = 2 \/ d = 3 \/ d = 4 \/ d = 5 \/ d = 6
                   \/ d = 7 \/ d = 8 \/ d = 9 \/ d = 10 \/ d = 11 \/ d = 12
                   \/ d = 13 \/ d = 14 \/ d = 15) by lia.
  repeat (destruct Hcases as [->|Hcases]; [by vm_compute|]).
  subst. by vm_compute.
Qed.

Lemma hex_go_append (fuel : nat) :
  forall (n : Z) (acc : string),
    UniqueRequest.hex_go fuel n acc = UniqueRequest.hex_go fuel n "" +:+ acc.
Proof.
  induction fuel as [|fuel IH]; intros n acc; [done|]. simpl.
  destruct (decide (n = 0)); [done|].
  rewrite (IH _ (String _ acc)), (IH _ (String _ "")).
  by rewrite append_assoc.
Qed.

Lemma hex_go_spec (fuel : nat) :
  forall n : Z,
    0 <= n < 16 ^ Z.of_nat fuel ->
    hex_value 0 (UniqueRequest.hex_go fuel n "") = n
    /\ all_chars is_hex (UniqueRequest.hex_go fuel n "") = true.
Proof.
  induction fuel as [|fuel IH]; intros n Hn.
  - simpl in *. split; [lia|done].
  - simpl. destruct (decide (n = 0)) as [->|Hn0]; [done|].
    rewrite hex_go_append.
    rewrite Nat2Z.inj_succ, Z.pow_succ_r in Hn by lia.
    destruct (IH (n / 16)) as [Hv Hall].
    { split; [apply Z.div_pos; lia|apply Z.div_lt_upper_bound; lia]. }
    destruct (hex_digit_spec (n mod 16)) as [Hh Hd].
    { apply Z.mod_pos_bound. lia. }
    split.
    + rewrite hex_value_append, Hv. simpl. rewrite Hd.
      pose proof (Z.div_mod n 16). lia.
    + rewrite all_chars_append, Hall. simpl. by rewrite Hh.
Qed.

Lemma hex_digits_spec (n : Z) :
  0 <= n ->
  hex_value 0 (UniqueRequest.hex_digits n) = n
  /\ all_chars is_hex (UniqueRequest.hex_digits n) = true.
Proof.
  intros Hn. unfold UniqueRequest.hex_digits.
  destruct (decide (n = 0)) as [->|Hn0]; [done|].
  apply hex_go_spec. split; [done|].
  rewrite Nat2Z.inj_succ, Z2Nat.id by apply Z.log2_nonneg.
  assert (Hlt : n < 2 ^ Z.succ (Z.log2 n)) by (apply Z.log2_spec; lia).
  assert (Hle : 2 ^ Z.succ (Z.log2 n) <= 16 ^ Z.succ (Z.log2 n)).
  { apply Z.pow_le_mono_l. lia. }
  lia.
Qed.

Lemma zeros_spec (k : nat) :
  String.length (UniqueRequest.zeros k) = k
  /\ all_chars is_hex (UniqueRequest.zeros k) = true
  /\ forall v : Z, v = 0 -> hex_value v (UniqueRequest.zeros k) = 0.
Proof.
  induction k as [|k (Hl & Ha & Hv)]; [done|]. simpl.
  split; [by rewrite Hl|]. split; [done|].
  intros v ->. by apply Hv.
Qed.

Lemma zfill_hex (width : nat) (s : string) :
  all_chars is_hex s = true ->
  UniqueRequest.zfill width s
  = if decide (width <= String.length s)%nat then s
    else UniqueRequest.zeros (width - String.length s) +:+ s.
Proof.
  intros Hs. unfold UniqueRequest.zfill.
  destruct (decide (width <= String.length s)%nat); [done|].
  destruct s as [|c r]; [done|].
  simpl in Hs. apply andb_true_iff in Hs as [Hc _].
  destruct c as [[] [] [] [] [] [] [] []]; try discriminate Hc; reflexivity.
Qed.

Lemma hex8_spec (c : Z) :
  0 <= c ->
  String.length (hex8 c) = 8%nat
  /\ all_chars is_hex (hex8 c) = true
  /\ hex_value 0 (hex8 c) = c mod 2 ^ 32.
Proof.
  intros Hc. unfold hex8, UniqueRequest.hex.
  rewrite decide_False by lia.
  change (PyStr.drop 2 ("0x" +:+ UniqueRequest.hex_digits c))
    with (UniqueRequest.hex_digits c).
  destruct (hex_digits_spec c Hc) as [Hv Hall].
  set (d := UniqueRequest.hex_digits c) in *.
  set (z := UniqueRequest.zfill 8 d).
  assert (Hz : (8 <= String.length z)%nat
               /\ all_chars is_hex z = true /\ hex_value 0 z = c).
  { subst z. rewrite zfill_hex by done.
    destruct (decide (8 <= String.length d)%nat) as [Hd|Hd]; [done|].
    destruct (zeros_spec (8 - String.length d)) as (Hl & Ha & Hz).
    rewrite length_append, Hl, all_chars_append, Ha, Hall, hex_value_append.
    rewrite (Hz 0 eq_refl). split; [lia|done]. }
  destruct Hz as (Hlen & Hzall & Hzv).
  unfold UniqueRequest.last_chars.
  set (j := (String.length z - 8)%nat).
  assert (Hl8 : String.length (PyStr.drop j z) = 8%nat)
    by (rewrite length_drop; lia).
  split; [done|]. split; [by apply all_chars_drop|].
  rewrite <- (take_drop j z), hex_value_append, hex_value_shift, Hl8 in Hzv.
  pose proof (hex_value_bound (PyStr.drop j z)) as Hb. rewrite Hl8 in Hb.
  change (16 ^ Z.of_nat 8) with (2 ^ 32) in *.
  apply (Z.mod_unique_pos _ _ (hex_value 0 (PyStr.take j z))); lia.
Qed.

(** X6.  [request_id] returns the process id in decimal, a dash, and
    exactly eight lower-case hexadecimal digits whose value is the new
    counter modulo 2^32; the counter is the stored one, or the random
    draw when none is stored, plus one, and it is stored back together
    with the process id. *)
Theorem request_id_format (randint : Z) (getpid : N)
    (g : UniqueRequest.globals) :
  counter_ok g ->
  1000000 <= randint ->
  let c := default randint (UniqueRequest.req_c g) + 1 in
  let p := default (pretty getpid) (UniqueRequest.pid g) in
  exists h : string,
    UniqueRequest.request_id randint getpid g
    = ({| UniqueRequest.req_c := Some c; UniqueRequest.pid := Some p |},
       p +:+ "-" +:+ h)
    /\ String.length h = 8%nat
    /\ all_chars is_hex h = true
    /\ hex_value 0 h = c mod 2 ^ 32.
Proof.
  intros Hg Hr c p. exists (hex8 c).
  split.
  - unfold UniqueRequest.request_id. subst c p.
    by destruct (UniqueRequest.req_c g), (UniqueRequest.pid g).
  - apply hex8_spec. subst c. unfold counter_ok in Hg.
    destruct (UniqueRequest.req_c g); simpl; lia.
Qed.

Lemma request_id_format_witness :
  counter_ok fresh_globals
  /\ 1000000 <= 305419895
  /\ exists h : string,
       UniqueRequest.request_id 305419895 4242 fresh_globals
       = ({| UniqueRequest.req_c := Some 305419896;
             UniqueRequest.pid := Some "4242" |}, "4242" +:+ "-" +:+ h)
       /\ String.length h = 8%nat
       /\ all_chars is_hex h = true
       /\ hex_value 0 h = 305419896 mod 2 ^ 32.
Proof.
  assert (H1 : counter_ok fresh_globals) by exact I.
  assert (H2 : 1000000 <= 305419895) by lia.
  split; [exact H1|]. split; [exact H2|].
  exact (request_id_format 305419895 4242 fresh_globals H1 H2).
Defined.

(** The id of the first request of process 4242 when the draw is
    305419895. *)
Example request_id_first :
  (UniqueRequest.request_id 305419895 4242 fresh_globals).2 = "4242-12345678".
Proof. reflexivity. Qed.

Lemma request_ids_shape (n : nat) :
  forall (i : nat) (randint : nat -> Z) (getpid : nat -> N)
         (g : UniqueRequest.globals),
    UniqueRequest.request_ids n i randint getpid g
    = map (fun k : nat =>
             default (pretty (getpid i)) (UniqueRequest.pid g) +:+ "-"
             +:+ hex8 (default (randint i) (UniqueRequest.req_c g) + 1
                       + Z.of_nat k))
        (seq 0 n).
Proof.
  induction n as [|n IH]; intros i randint getpid g; [done|].
  cbn [UniqueRequest.request_ids UniqueRequest.request_id seq map].
  rewrite IH. cbn [UniqueRequest.req_c UniqueRequest.pid default].
  f_equal.
  - destruct (UniqueRequest.req_c g), (UniqueRequest.pid g); simpl;
      by rewrite Z.add_0_r.
  - rewrite <- seq_shift, map_map. apply map_ext. intros k.
    destruct (UniqueRequest.req_c g), (UniqueRequest.pid g); simpl;
      unfold id; do 3 f_equal; lia.
Qed.

(** X7.  The ids of up to 2^32 calls in a row are pairwise distinct,
    whatever the first draw of the random generator is. *)
Theorem request_ids_distinct (n i : nat) (randint : nat -> Z)
    (getpid : nat -> N) (g : UniqueRequest.globals) :
  counter_ok g ->
  1000000 <= randint i ->
  Z.of_nat n <= 2 ^ 32 ->
  NoDup (UniqueRequest.request_ids n i randint getpid g).
Proof.
  intros Hg Hr Hn. rewrite request_ids_shape.
  set (c := default (randint i) (UniqueRequest.req_c g) + 1).
  assert (Hc : 0 <= c).
  { subst c. unfold counter_ok in Hg.
    destruct (UniqueRequest.req_c g); simpl; lia. }
  apply (NoDup_fmap_2_strong _ (seq 0 n)); [|apply NoDup_seq].
  intros k j Hk Hj Heq.
  apply elem_of_seq in Hk. apply elem_of_seq in Hj.
  apply String.app_inj in Heq. apply String.app_inj in Heq.
  assert (Hv : hex_value 0 (hex8 (c + Z.of_nat k))
               = hex_value 0 (hex8 (c + Z.of_nat j))) by by rewrite Heq.
  destruct (hex8_spec (c + Z.of_nat k)) as (_ & _ & Hvk); [lia|].
  destruct (hex8_spec (c + Z.of_nat j)) as (_ & _ & Hvj); [lia|].
  rewrite Hvk, Hvj in Hv.
  assert (Hd : (c + Z.of_nat k - (c + Z.of_nat j)) mod 2 ^ 32 = 0).
  { rewrite Zminus_mod, Hv, Z.sub_diag. done. }
  apply Z.mod_divide in Hd; [|lia]. destruct Hd as [q Hq].
  assert (q = 0) by nia. lia.
Qed.

Lemma request_ids_distinct_witness :
  counter_ok fresh_globals
  /\ 1000000 <= 4294967294
  /\ Z.of_nat 3 <= 2 ^ 32
  /\ NoDup (UniqueRequest.request_ids 3 0 (fun _ => 4294967294) pid_of_call
              fresh_globals)
  /\ UniqueRequest.request_ids 3 0 (fun _ => 4294967294) pid_of_call
       fresh_globals
     = ["4242-ffffffff"; "4242-00000000"; "4242-00000001"].
Proof.
  assert (H1 : counter_ok fresh_globals) by exact I.
  assert (H2 : 1000000 <= 4294967294) by lia.
  assert (H3 : Z.of_nat 3 <= 2 ^ 32) by (vm_compute; discriminate).
  split; [exact H1|]. split; [exact H2|]. split; [exact H3|].
  split; [|reflexivity].
  exact (request_ids_distinct 3 0 (fun _ => 4294967294) pid_of_call
           fresh_globals H1 H2 H3).
Defined.

(** X8.  All ids of a run of calls start with the same process id: the
    stored one, or else the one read at the first call.  [os.getpid()]
    is not read again, so a process id that changes later (after a
    fork) does not show in the ids. *)
Theorem request_ids_keep_pid (n i : nat) (randint : nat -> Z)
    (getpid : nat -> N) (g : UniqueRequest.globals) :
  Forall
    (fun rid =>
       PyStr.startswith
         (default (pretty (getpid i)) (UniqueRequest.pid g) +:+ "-") rid
       = true)
    (UniqueRequest.request_ids n i randint getpid g).
Proof.
  rewrite request_ids_shape. apply Forall_forall. intros rid Hin.
  apply list_elem_of_fmap in Hin as (k & -> & _).
  rewrite <- append_assoc. apply startswith_append.
Qed.

(** ** More on [configure] *)

Lemma keeps_bind (P : World -> Prop) {A B : Type} (m : M A) (f : A -> M B) :
  keeps P m -> (forall a : A, keeps P (f a)) -> keeps P (m ≫= f).
Proof.
  intros Hm Hf w Hw. unfold mbind, M_bind.
  specialize (Hm w Hw). destruct (m w) as [w' [a|e]]; [|done].
  by apply Hf.
Qed.

Lemma keeps_same (P : World -> Prop) {A : Type} (m : M A) :
  (forall w : World, (m w).1 = w) -> keeps P m.
Proof. intros Hm w Hw. by rewrite Hm. Qed.

Lemma getboolean_same (section : Section_) (option : string) (fb : bool)
    (w : World) :
  (getboolean section option fb w).1 = w.
Proof.
  unfold getboolean. destruct (section !! option); [|done].
  by repeat destruct (decide _).
Qed.

(** What attaching one new sink does to the world. *)
Lemma sink_step (env : Env) (s : sink) (flt : TachyonFilter) (w : World) :
  bounded w ->
  let r := (new_handler env s ≫= fun handler => attach handler flt) w in
  (can_open env s = false /\ r = (w, Raise OSError))
  \/ (can_open env s = true
      /\ r.2 = OK tt
      /\ handlers (logger r.1) = handlers (logger w) ++ [next w]
      /\ next r.1 = S (next w)
      /\ level (logger r.1) = level (logger w)
      /\ name (logger r.1) = name (logger w)
      /\ attached r.1 = attached w ++ [Some (section_handler flt s)]).
Proof.
  intros Hb r. subst r.
  assert (Hfresh : next w ∉ handlers (logger w)).
  { intros Hin. unfold bounded in Hb. rewrite Forall_forall in Hb.
    specialize (Hb _ Hin). lia. }
  unfold mbind, M_bind, new_handler, attach, mbind, M_bind.
  destruct (can_open env s); [right|by left].
  unfold setFormatter, addFilter, addHandler. simpl.
  rewrite decide_False by done. simpl.
  repeat (split; [done|]).
  unfold attached. simpl. rewrite map_app. simpl.
  rewrite !lookup_alter_eq, lookup_insert_eq. simpl. f_equal.
  apply map_ext_in. intros a Hin%list_elem_of_In.
  assert (a <> next w) by (intros ->; done).
  by rewrite !lookup_alter_ne, lookup_insert_ne.
Qed.

Lemma only_new_bounded (n0 : nat) (w : World) : only_new n0 w -> bounded w.
Proof.
  intros [_ H]. unfold bounded. eapply Forall_impl; [exact H|]. simpl. lia.
Qed.

Lemma keeps_only_new_sink (n0 : nat) (env : Env) (s : sink)
    (flt : TachyonFilter) :
  keeps (only_new n0)
    (new_handler env s ≫= fun handler => attach handler flt).
Proof.
  intros w Hw.
  destruct (sink_step env s flt w (only_new_bounded _ _ Hw))
    as [[_ ->]|(_ & _ & Hh & Hn & _)]; [done|].
  destruct Hw as [Hn0 Hall]. unfold only_new. rewrite Hh, Hn.
  split; [lia|]. apply Forall_app. split.
  - eapply Forall_impl; [exact Hall|]. simpl. lia.
  - apply Forall_singleton. lia.
Qed.

Lemma keeps_only_new_set_level (n0 : nat) (v : pyval) :
  keeps (only_new n0) (set_level v).
Proof.
  unfold set_level.
  destruct v as [n|f|s|]; [by intros w Hw| | |by intros w Hw].
  { destruct f; by intros w Hw. }
  destruct (int_of_str s); [by intros w Hw|].
  destruct (decide _); [|by intros w Hw].
  destruct (logging_attr _); by intros w Hw.
Qed.

Lemma keeps_level_sink (L : Z) (env : Env) (s : sink) (flt : TachyonFilter) :
  keeps (fun w => bounded w /\ level (logger w) = L)
    (new_handler env s ≫= fun handler => attach handler flt).
Proof.
  intros w [Hb Hl].
  destruct (sink_step env s flt w Hb)
    as [[_ ->]|(_ & _ & Hh & Hn & Hlv & _)]; [done|].
  split; [|congruence].
  unfold bounded in *. rewrite Hh, Hn. apply Forall_app. split.
  - eapply Forall_impl; [exact Hb|]. simpl. lia.
  - apply Forall_singleton. lia.
Qed.

Lemma keeps_sinks_step (P : World -> Prop) (env : Env)
    (config_section : string) (section : Section_) :
  (forall (s : sink) (flt : TachyonFilter),
     keeps P (new_handler env s ≫= fun handler => attach handler flt)) ->
  keeps P (sinks_step env config_section section).
Proof.
  intros Hsink.
  apply keeps_bind; [apply keeps_same, getboolean_same|intros log_stdout].
  apply keeps_bind; [|intros _].
  { destruct log_stdout; [apply Hsink|by apply keeps_same]. }
  apply keeps_bind; [|intros _].
  { destruct (section !! "log_server"); [|by apply keeps_same].
    unfold syslog_handler.
    destruct (decide _);
      [destruct (is_socket env "/dev/log");
       [|destruct (is_socket env "/var/run/syslog")]|];
      apply Hsink. }
  destruct (section !! "log_file"); [apply Hsink|by apply keeps_same].
Qed.

Lemma configure_present (env : Env) (config : Config)
    (config_section : string) (section : Section_) (w : World) :
  config !! config_section = Some section ->
  configure env config config_section w
  = (level_step config_section section ;;
     sinks_step env config_section section) (with_handlers [] w).
Proof.
  intros Hcfg. unfold configure. rewrite Hcfg.
  by rewrite decide_False by (intros [_ ?]; done).
Qed.

(** X10.  When the configuration has the section, no handler that the
    logger held before the call is attached after it, whether the call
    returns or raises: the list is reset before anything else is
    done. *)
Theorem configure_present_drops_prior (env : Env) (config : Config)
    (config_section : string) (section : Section_) (w : World)
    (a : nat) :
  config !! config_section = Some section ->
  bounded w ->
  a ∈ handlers (logger w) ->
  a ∉ handlers (logger (configure env config config_section w).1).
Proof.
  intros Hcfg Hb Ha Hin. rewrite (configure_present _ _ _ _ _ Hcfg) in Hin.
  assert (Hkeep : keeps (only_new (next w))
                    (level_step config_section section ;;
                     sinks_step env config_section section)).
  { apply keeps_bind; [|intros _].
    - unfold level_step. destruct (section !! "log_level");
        [apply keeps_only_new_set_level|].
      destruct (decide _);
        [apply keeps_only_new_set_level|by apply keeps_same].
    - apply keeps_sinks_step. intros s flt. apply keeps_only_new_sink. }
  destruct (Hkeep (with_handlers [] w)) as [_ Hall].
  { split; [done|apply Forall_nil_2]. }
  rewrite Forall_forall in Hall. specialize (Hall _ Hin).
  unfold bounded in Hb. rewrite Forall_forall in Hb. specialize (Hb _ Ha).
  change (next (with_handlers [] w)) with (next w) in Hall. lia.
Qed.

Lemma configure_present_drops_prior_witness :
  shop_config !! "application" = Some shop_section
  /\ bounded two_handler_world
  /\ 1%nat ∈ handlers (logger two_handler_world)
  /\ 1%nat ∉ handlers (logger (configure devlog_env shop_config "application"
                                 two_handler_world).1).
Proof.
  assert (H1 : shop_config !! "application" = Some shop_section)
    by reflexivity.
  assert (H2 : bounded two_handler_world).
  { repeat constructor. }
  assert (H3 : 1%nat ∈ handlers (logger two_handler_world)).
  { right. left. }
  split; [exact H1|]. split; [exact H2|]. split; [exact H3|].
  exact (configure_present_drops_prior devlog_env shop_config "application"
           shop_section two_handler_world 1 H1 H2 H3).
Defined.

Lemma attaches_bind (flt : TachyonFilter) {A B : Type} (m : M A)
    (f : A -> M B) (s1 s2 : list sink) :
  attaches flt m s1 -> (forall a : A, attaches flt (f a) s2) ->
  attaches flt (m ≫= f) (s1 ++ s2).
Proof.
  intros Hm Hf w Hb [b Hok]. unfold mbind, M_bind in *.
  specialize (Hm w Hb).
  destruct (m w) as [w1 [a|e]]; [|done].
  destruct Hm as [Hb1 Ha1]; [by eexists|].
  destruct (Hf a w1 Hb1) as [Hb2 Ha2]; [by eexists|].
  split; [done|]. rewrite Ha2. simpl in Ha1. rewrite Ha1.
  by rewrite map_app, app_assoc.
Qed.

Lemma attaches_same (flt : TachyonFilter) {A : Type} (m : M A) :
  (forall w : World, (m w).1 = w) -> attaches flt m [].
Proof. intros Hm w Hb _. rewrite Hm. by rewrite app_nil_r. Qed.

Lemma attaches_raise (flt : TachyonFilter) {A B : Type} (e : exn)
    (f : A -> M B) (s : list sink) :
  attaches flt (raise e ≫= f) s.
Proof. intros w _ [b Hok]. discriminate Hok. Qed.

Lemma attaches_ret (flt : TachyonFilter) {A B : Type} (b : A)
    (f : A -> M B) (s : list sink) :
  attaches flt (f b) s -> attaches flt (mret b ≫= f) s.
Proof. intros H. exact H. Qed.

Lemma attaches_sink (flt : TachyonFilter) (env : Env) (s : sink) :
  attaches flt (new_handler env s ≫= fun handler => attach handler flt) [s].
Proof.
  intros w Hb [b Hok].
  destruct (sink_step env s flt w Hb)
    as [[_ Hr]|(_ & _ & Hh & Hn & _ & _ & Ha)].
  - rewrite Hr in Hok. discriminate Hok.
  - split; [|done]. unfold bounded in *. rewrite Hh, Hn.
    apply Forall_app. split.
    + eapply Forall_impl; [exact Hb|]. simpl. lia.
    + apply Forall_singleton. lia.
Qed.

Lemma attaches_set_level (flt : TachyonFilter) (v : pyval) :
  attaches flt (set_level v) [].
Proof.
  assert (Hset : forall n, attaches flt (setLevel n) []).
  { intros n w Hb _. split; [done|]. by rewrite app_nil_r. }
  unfold set_level.
  destruct v as [n|f|s|]; [apply Hset| | |by apply attaches_same].
  { destruct f; simpl; [apply Hset|by apply attaches_same..]. }
  destruct (int_of_str s); [apply Hset|].
  destruct (decide _); [|by apply attaches_same].
  destruct (logging_attr _); [apply Hset|by apply attaches_same].
Qed.

Lemma attaches_sinks_step (env : Env) (config_section : string)
    (section : Section_) :
  attaches (section_filter config_section section)
    (sinks_step env config_section section) (section_sinks env section).
Proof.
  set (flt := section_filter config_section section).
  assert (Hrest : attaches flt
            (match section !! "log_server" with
             | Some host =>
                 let port := match section !! "log_server_port" with
                             | Some p => VStr p
                             | None => VInt 514
                             end in
                 handler ← syslog_handler env host port ;
                 attach handler flt
             | None => skip
             end ;;
             match section !! "log_file" with
             | Some log_file =>
                 handler ← new_handler env (FileHandler log_file) ;
                 attach handler flt
             | None => skip
             end)
            (match section !! "log_server" with
             | Some host =>
                 [syslog_sink env host
                    match section !! "log_server_port" with
                    | Some p => VStr p
                    | None => VInt 514
                    end]
             | None => []
             end
             ++ match section !! "log_file" with
                | Some log_file => [FileHandler log_file]
                | None => []
                end)).
  { apply attaches_bind; [|intros _].
    - destruct (section !! "log_server") as [host|];
        [|by apply attaches_same].
      unfold syslog_handler, syslog_sink.
      destruct (decide _);
        [destruct (is_socket env "/dev/log");
         [|destruct (is_socket env "/var/run/syslog")]|];
        apply attaches_sink.
    - destruct (section !! "log_file"); [apply attaches_sink|].
      by apply attaches_same. }
  unfold sinks_step, section_sinks, getboolean, parse_boolean.
  fold flt.
  destruct (section !! "log_stdout") as [value|]; simpl.
  - destruct (decide _); [|destruct (decide _)].
    + apply attaches_ret.
      apply (attaches_bind flt _ _ [StreamHandler]); [|intros ?; exact Hrest].
      apply attaches_sink.
    + apply attaches_ret.
      apply (attaches_bind flt _ _ []); [|intros ?; exact Hrest].
      by apply attaches_same.
    + apply attaches_raise.
  - apply attaches_ret.
    apply (attaches_bind flt _ _ []); [|intros ?; exact Hrest].
    by apply attaches_same.
Qed.

(** X11.  When [configure] returns normally for a section of the
    configuration, the logger's handlers are exactly the sinks the
    section asks for, in the order stdout, syslog, file: each is a new
    handler with the verbose formatter and the one filter of the
    section.  A local syslog host goes to [/dev/log], else to
    [/var/run/syslog], when that is a socket, and any other host to
    (host, port) with port 514 unless one is configured. *)
Theorem configure_section_sinks (env : Env) (config : Config)
    (config_section : string) (section : Section_) (w : World) :
  config !! config_section = Some section ->
  (configure env config config_section w).2 = OK tt ->
  attached (configure env config config_section w).1
  = map (fun s => Some (section_handler
                          (section_filter config_section section) s))
      (section_sinks env section).
Proof.
  intros Hcfg Hok. rewrite (configure_present _ _ _ _ _ Hcfg) in Hok |- *.
  assert (Hatt : attaches (section_filter config_section section)
                   (level_step config_section section ;;
                    sinks_step env config_section section)
                   ([] ++ section_sinks env section)).
  { apply attaches_bind; [|intros _; apply attaches_sinks_step].
    unfold level_step. destruct (section !! "log_level");
      [apply attaches_set_level|].
    destruct (decide _); [apply attaches_set_level|by apply attaches_same]. }
  destruct (Hatt (with_handlers [] w)) as [_ Ha];
    [apply Forall_nil_2|by eexists|].
  exact Ha.
Qed.

Lemma configure_section_sinks_witness :
  shop_config !! "application" = Some shop_section
  /\ (configure devlog_env shop_config "application" two_handler_world).2
     = OK tt
  /\ attached (configure devlog_env shop_config "application"
                 two_handler_world).1
     = [Some (section_handler {| app_name := Some "shop" |} StreamHandler);
        Some (section_handler {| app_name := Some "shop" |}
                (SysLogHandler "/dev/log"));
        Some (section_handler {| app_name := Some "shop" |}
                (FileHandler "/var/log/shop.log"))].
Proof.
  assert (H1 : shop_config !! "application" = Some shop_section)
    by reflexivity.
  assert (H2 : (configure devlog_env shop_config "application"
                  two_handler_world).2 = OK tt) by (vm_compute; reflexivity).
  split; [exact H1|]. split; [exact H2|].
  rewrite (configure_section_sinks devlog_env shop_config "application"
             shop_section two_handler_world H1 H2).
  vm_compute. reflexivity.
Defined.



(** X13.  When the section has no [log_level], the application logger
    ends at WARNING and any other logger keeps its level, however the
    rest of the call goes. *)
Theorem configure_default_level (env : Env) (config : Config)
    (config_section : string) (section : Section_) (w : World) :
  config !! config_section = Some section ->
  section !! "log_level" = None ->
  level (logger (configure env config config_section w).1)
  = if decide (config_section = "application") then WARNING
    else level (logger w).
Proof.
  intros Hcfg Hlvl. rewrite (configure_present _ _ _ _ _ Hcfg).
  set (L := if decide (config_section = "application") then WARNING
            else level (logger w)).
  assert (Hkeep : keeps (fun w' => bounded w' /\ level (logger w') = L)
                    (sinks_step env config_section section)).
  { apply keeps_sinks_step. intros s flt. apply keeps_level_sink. }
  unfold mbind at 1, M_bind at 1, level_step. rewrite Hlvl.
  subst L. destruct (decide (config_section = "application")).
  - change (set_level (VStr "WARNING") (with_handlers [] w))
      with (setLevel WARNING (with_handlers [] w)).
    apply Hkeep. split; [apply Forall_nil_2|done].
  - apply Hkeep. split; [apply Forall_nil_2|done].
Qed.

Lemma configure_default_level_witness :
  shop_config !! "application" = Some shop_section
  /\ shop_section !! "log_level" = None
  /\ level (logger (configure devlog_env shop_config "application"
                      one_handler_world).1) = WARNING.
Proof.
  assert (H1 : shop_config !! "application" = Some shop_section)
    by reflexivity.
  assert (H2 : shop_section !! "log_level" = None) by reflexivity.
  split; [exact H1|]. split; [exact H2|].
  exact (configure_default_level devlog_env shop_config "application"
           shop_section one_handler_world H1 H2).
Defined.

Lemma configure_present_idempotent_witness :
  shop_config !! "application" = Some shop_section
  /\ attached (configure devlog_env shop_config "application"
                 (configure devlog_env shop_config "application"
                    two_handler_world).1).1
     = attached (configure devlog_env shop_config "application"
                   two_handler_world).1
  /\ (configure devlog_env shop_config "application"
        (configure devlog_env shop_config "application"
           two_handler_world).1).2
     = (configure devlog_env shop_config "application" two_handler_world).2.
Proof.
  assert (H1 : shop_config !! "application" = Some shop_section)
    by reflexivity.
  split; [exact H1|].
  exact (configure_present_idempotent devlog_env shop_config "application"
           shop_section two_handler_world H1).
Defined.

Lemma configure_absent_section_at_most_one_witness :
  (∅ : gmap string (gmap string string)) !! "application" = None
  /\ can_open plain_env StreamHandler = true
  /\ (length (handlers (logger one_handler_world)) <= 1)%nat
  /\ attached (configure plain_env ∅ "application" one_handler_world).1
     = [Some default_stdout]
  /\ (configure plain_env ∅ "application" one_handler_world).2 = OK tt.
Proof.
  assert (H1 : (∅ : gmap string (gmap string string)) !! "application" = None)
    by reflexivity.
  assert (H2 : can_open plain_env StreamHandler = true) by reflexivity.
  assert (H3 : (length (handlers (logger one_handler_world)) <= 1)%nat)
    by (simpl; lia).
  split; [exact H1|]. split; [exact H2|]. split; [exact H3|].
  exact (configure_absent_section_at_most_one plain_env ∅ one_handler_world
           H1 H2 H3).
Defined.

(** ** [GetLogger]: construction and [configure] over all loggers *)

Lemma configure_missing_section (env : Env) (config : Config)
    (config_section : string) (w : World) :
  config_section <> "application" ->
  config !! config_section = None ->
  configure env config config_section w = (w, OK tt).
Proof.
  intros Happ Hcfg. unfold configure. rewrite Hcfg.
  by rewrite decide_False by (intros [? _]; done).
Qed.

Lemma remove_handlers_loop_store (fuel : nat) :
  forall (i : nat) (w : World),
    heap (remove_handlers_loop fuel i w).1 = heap w
    /\ next (remove_handlers_loop fuel i w).1 = next w.
Proof.
  induction fuel as [|fuel IH]; intros i w; [done|]. simpl.
  destruct (handlers (logger w) !! i) as [h|]; [|done].
  unfold mbind, M_bind.
  assert (Hrm : (removeHandler h w).2 = OK tt
                /\ heap (removeHandler h w).1 = heap w
                /\ next (removeHandler h w).1 = next w).
  { unfold removeHandler. by destruct (decide _). }
  destruct (removeHandler h w) as [w' r]. simpl in Hrm.
  destruct Hrm as (-> & <- & <-). apply IH.
Qed.

Lemma keeps_frozen_store (n0 : nat) (h0 : gmap nat Handler) {A : Type}
    (m : M A) :
  (forall w : World, heap (m w).1 = heap w /\ next (m w).1 = next w) ->
  keeps (frozen n0 h0) m.
Proof.
  intros Hm w [Hn Hh]. destruct (Hm w) as [Hheap Hnext].
  unfold frozen. by rewrite Hheap, Hnext.
Qed.

Lemma keeps_frozen_set_level (n0 : nat) (h0 : gmap nat Handler) (v : pyval) :
  keeps (frozen n0 h0) (set_level v).
Proof.
  apply keeps_frozen_store. intros w. unfold set_level.
  destruct v as [n|f|s|]; [done|by destruct f| |done].
  destruct (int_of_str s); [done|].
  destruct (decide _); [|done]. by destruct (logging_attr _).
Qed.

Lemma keeps_frozen_sink (n0 : nat) (h0 : gmap nat Handler) (env : Env)
    (s : sink) (flt : TachyonFilter) :
  keeps (frozen n0 h0)
    (new_handler env s ≫= fun handler => attach handler flt).
Proof.
  intros w [Hn Hh]. unfold mbind, M_bind, new_handler, attach, mbind, M_bind.
  destruct (can_open env s); [|by split].
  unfold setFormatter, addFilter, addHandler. simpl.
  destruct (decide _); (split; simpl; [lia|]); intros a Ha;
    rewrite !lookup_alter_ne, lookup_insert_ne by lia; by apply Hh.
Qed.

Lemma keeps_frozen_default (n0 : nat) (h0 : gmap nat Handler) (env : Env) :
  keeps (frozen n0 h0) (configure_default env).
Proof.
  unfold configure_default. apply keeps_bind; [|intros _].
  { apply keeps_frozen_store. intros w. apply remove_handlers_loop_store. }
  intros w [Hn Hh]. unfold mbind, M_bind, new_handler.
  destruct (can_open env StreamHandler); [|by split].
  unfold setFormatter, addFilter, addHandler. simpl.
  destruct (decide _); (split; simpl; [lia|]); intros a Ha;
    rewrite !lookup_alter_ne, lookup_insert_ne by lia; by apply Hh.
Qed.

Lemma keeps_frozen_configure (n0 : nat) (h0 : gmap nat Handler) (env : Env)
    (config : Config) (config_section : string) :
  keeps (frozen n0 h0) (configure env config config_section).
Proof.
  unfold configure. apply keeps_bind; [|intros _].
  { destruct (decide _); [apply keeps_frozen_default|by apply keeps_same]. }
  destruct (config !! config_section) as [section|]; [|by apply keeps_same].
  unfold configure_section.
  fold (section_filter config_section section).
  apply keeps_bind; [by apply keeps_frozen_store|intros _].
  apply keeps_bind; [|intros _].
  { destruct (section !! "log_level"); [apply keeps_frozen_set_level|].
    destruct (decide _); [apply keeps_frozen_set_level|by apply keeps_same]. }
  apply (keeps_sinks_step _ env config_section section).
  intros s flt. apply keeps_frozen_sink.
Qed.

(** X16.  [configure] writes to no handler object that existed before
    the call: it only allocates new ones.  Handlers that other loggers
    share are therefore as they were, whichever path the call takes and
    however it ends. *)
Theorem configure_keeps_store (env : Env) (config : Config)
    (config_section : string) (w : World) (a : nat) :
  (a < next w)%nat ->
  heap (configure env config config_section w).1 !! a = heap w !! a
  /\ (next w <= next (configure env config config_section w).1)%nat.
Proof.
  intros Ha.
  destruct (keeps_frozen_configure (next w) (heap w) env config
              config_section w) as [Hn Hh]; [by split|].
  split; [by apply Hh|done].
Qed.

Lemma configure_keeps_store_witness :
  (1 < next two_handler_world)%nat
  /\ heap (configure devlog_env shop_config "application"
             two_handler_world).1 !! 1%nat
     = Some file_handler
  /\ (next two_handler_world
      <= next (configure devlog_env shop_config "application"
                 two_handler_world).1)%nat.
Proof.
  assert (H1 : (1 < next two_handler_world)%nat) by (simpl; lia).
  split; [exact H1|].
  exact (configure_keeps_store devlog_env shop_config "application"
           two_handler_world 1 H1).
Defined.

Lemma configure_sub_loggers_spec (env : Env) (config : Config)
    (d : list (string * node)) :
  forall (hp : gmap nat Handler) (nx : nat),
    let r := configure_sub_loggers env config hp nx d in
    (nx <= r.1.1.2)%nat
    /\ (forall a : nat, (a < nx)%nat -> r.1.1.1 !! a = hp !! a)
    /\ r.1.2.*1 = d.*1
    /\ forall (i : nat) (nm : string) (nd : node),
         d !! i = Some (nm, nd) ->
         nd = PlaceHolder \/ (nm <> "application" /\ config !! nm = None) ->
         r.1.2 !! i = Some (nm, nd).
Proof.
  induction d as [|[nm0 nd0] d IH]; intros hp nx; [done|].
  cbn [configure_sub_loggers].
  destruct nd0 as [lg|].
  - destruct (configure env config nm0
                {| heap := hp; next := nx; logger := lg |})
      as [w r0] eqn:Hrun.
    pose proof (keeps_frozen_configure nx hp env config nm0
                  {| heap := hp; next := nx; logger := lg |}) as Hfr.
    rewrite Hrun in Hfr. destruct Hfr as [Hn Hh]; [by split|].
    simpl in Hn, Hh.
    assert (Hsame : nm0 <> "application" /\ config !! nm0 = None ->
                    logger w = lg).
    { intros [Happ Hcfg].
      rewrite (configure_missing_section _ _ _ _ Happ Hcfg) in Hrun.
      by injection Hrun as <- _. }
    destruct r0 as [[]|e].
    + specialize (IH (heap w) (next w)).
      destruct (configure_sub_loggers env config (heap w) (next w) d)
        as [[[hp' nx'] d'] r'].
      simpl in IH |- *. destruct IH as (IH1 & IH2 & IH3 & IH4).
      split; [lia|]. split; [|split].
      * intros a Ha. rewrite IH2 by lia. by apply Hh.
      * simpl in IH3. by f_equal.
      * intros [|i] nm nd Hi Hc; simpl in Hi |- *; [|by apply IH4].
        injection Hi as <- <-. destruct Hc as [Hc|Hc]; [done|].
        by rewrite Hsame.
    + simpl. split; [done|]. split; [done|]. split; [done|].
      intros [|i] nm nd Hi Hc; simpl in Hi |- *; [|done].
      injection Hi as <- <-. destruct Hc as [Hc|Hc]; [done|].
      by rewrite Hsame.
  - specialize (IH hp nx).
    destruct (configure_sub_loggers env config hp nx d)
      as [[[hp' nx'] d'] r'].
    simpl in IH |- *. destruct IH as (IH1 & IH2 & IH3 & IH4).
    split; [done|]. split; [done|]. split; [simpl in IH3; by f_equal|].
    intros [|i] nm nd Hi Hc; simpl in Hi |- *; [done|by apply IH4].
Qed.

(** X17.  [GetLogger.configure] leaves alone every entry of
    [loggerDict] that is a placeholder or a logger whose name has no
    section in the configuration (and is not [application]): the entry,
    with the logger's level and handler list, is the same afterwards,
    the names and their order are kept, and no handler object that
    existed before is changed, whether the call returns or raises. *)
Theorem GetLogger_configure_untouched (env : Env) (config : Config)
    (L : Logging) (i : nat) (nm : string) (nd : node) :
  loggerDict L !! i = Some (nm, nd) ->
  nd = PlaceHolder \/ (nm <> "application" /\ config !! nm = None) ->
  loggerDict (GetLogger_configure env config L).1 !! i = Some (nm, nd)
  /\ (loggerDict (GetLogger_configure env config L).1).*1 = (loggerDict L).*1
  /\ forall a : nat,
       (a < free L)%nat ->
       store (GetLogger_configure env config L).1 !! a = store L !! a.
Proof.
  intros Hi Hc. unfold GetLogger_configure.
  destruct (configure env config "application"
              {| heap := store L; next := free L; logger := root L |})
    as [w r] eqn:Hrun.
  pose proof (keeps_frozen_configure (free L) (store L) env config
                "application"
                {| heap := store L; next := free L; logger := root L |})
    as Hfr.
  rewrite Hrun in Hfr. destruct Hfr as [Hn Hh]; [by split|].
  simpl in Hn, Hh.
  destruct r as [[]|e]; [|done].
  pose proof (configure_sub_loggers_spec env config (loggerDict L)
                (heap w) (next w)) as Hsub.
  destruct (configure_sub_loggers env config (heap w) (next w)
              (loggerDict L)) as [[[hp' nx'] d'] r'].
  simpl in Hsub |- *. destruct Hsub as (H1 & H2 & H3 & H4).
  split; [by apply H4|]. split; [done|].
  intros a Ha. rewrite H2 by lia. by apply Hh.
Qed.

Lemma GetLogger_configure_untouched_witness :
  loggerDict some_logging !! 1%nat = Some ("luxon.app", LoggerNode app_logger)
  /\ (LoggerNode app_logger = PlaceHolder
      \/ ("luxon.app" <> "application" /\ db_config !! "luxon.app" = None))
  /\ loggerDict (GetLogger_configure plain_env db_config some_logging).1
       !! 1%nat
     = Some ("luxon.app", LoggerNode app_logger)
  /\ store (GetLogger_configure plain_env db_config some_logging).1 !! 0%nat
     = Some file_handler.
Proof.
  assert (H1 : loggerDict some_logging !! 1%nat
               = Some ("luxon.app", LoggerNode app_logger)) by reflexivity.
  assert (H2 : LoggerNode app_logger = PlaceHolder
               \/ ("luxon.app" <> "application"
                   /\ db_config !! "luxon.app" = None)).
  { right. split; [discriminate|reflexivity]. }
  split; [exact H1|]. split; [exact H2|].
  destruct (GetLogger_configure_untouched plain_env db_config some_logging
              1 "luxon.app" (LoggerNode app_logger) H1 H2)
    as (Hnode & _ & Hstore).
  split; [exact Hnode|].
  exact (Hstore 0%nat (le_n 1)).
Defined.

(** X18.  [GetLogger()] for the root logger (no name, or the empty
    name) on a root without handlers attaches the default stdout
    handler, and a following [configure] with a configuration that has
    no [application] section replaces it by a new one of the same kind:
    the root has exactly one sink before and after. *)
Theorem GetLogger_init_then_configure (env : Env) (config : Config)
    (name_ : option string) (w : World) :
  name_ = None \/ name_ = Some "" ->
  handlers (logger w) = [] ->
  can_open env StreamHandler = true ->
  config !! "application" = None ->
  attached (GetLogger_init env name_ w).1 = [Some default_stdout]
  /\ attached (configure env config "application"
                 (GetLogger_init env name_ w).1).1
     = [Some default_stdout]
  /\ (configure env config "application" (GetLogger_init env name_ w).1).2
     = OK tt.
Proof.
  intros Hname Hhs Hopen Hcfg.
  assert (Hinit : exists w1 : World,
             (GetLogger_init env name_ w).1 = w1
             /\ handlers (logger w1) = [next w]
             /\ next w1 = S (next w)
             /\ heap w1 !! next w = Some default_stdout).
  { unfold GetLogger_init. rewrite decide_True by done.
    unfold mbind, M_bind, new_handler. rewrite Hopen.
    unfold addFilter, addHandler, setFormatter. simpl. rewrite Hhs.
    rewrite decide_False by apply not_elem_of_nil. simpl.
    eexists. split; [reflexivity|]. simpl. split; [done|]. split; [done|].
    by rewrite !lookup_alter_eq, lookup_insert_eq. }
  destruct Hinit as (w1 & -> & Hh1 & Hn1 & Hheap1).
  assert (Hatt1 : attached w1 = [Some default_stdout]).
  { unfold attached. rewrite Hh1. simpl. by rewrite Hheap1. }
  split; [done|].
  destruct (configure_absent_section_spec env config w1 Hcfg Hopen)
    as [Ha Hr].
  - rewrite Hh1. apply NoDup_singleton.
  - unfold bounded. rewrite Hh1, Hn1. apply Forall_singleton. lia.
  - rewrite Hh1 in Ha. simpl in Ha. done.
Qed.

Lemma GetLogger_init_then_configure_witness :
  ((None : option string) = None \/ (None : option string) = Some "")
  /\ handlers (logger bare_world) = []
  /\ can_open plain_env StreamHandler = true
  /\ db_config !! "application" = None
  /\ attached (GetLogger_init plain_env None bare_world).1
     = [Some default_stdout]
  /\ attached (configure plain_env db_config "application"
                 (GetLogger_init plain_env None bare_world).1).1
     = [Some default_stdout]
  /\ (configure plain_env db_config "application"
        (GetLogger_init plain_env None bare_world).1).2
     = OK tt.
Proof.
  assert (H1 : (None : option string) = None \/ None = Some "")
    by (left; reflexivity).
  assert (H2 : handlers (logger bare_world) = []) by reflexivity.
  assert (H3 : can_open plain_env StreamHandler = true) by reflexivity.
  assert (H4 : db_config !! "application" = None) by reflexivity.
  split; [exact H1|]. split; [exact H2|]. split; [exact H3|].
  split; [exact H4|].
  exact (GetLogger_init_then_configure plain_env db_config None bare_world
           H1 H2 H3 H4).
Defined.

(** ** [MPLogger]: construction, [receive] and [close] *)

Lemma handler_lists_clear (d : list (string * node)) (hs : list nat) :
  hs ∈ handler_lists (prod_map id clear_handlers <$> d) -> hs = [].
Proof.
  unfold handler_lists. intros H.
  apply list_elem_of_omap in H as ([nm nd] & Hin & Hsome).
  apply list_elem_of_fmap in Hin as ([nm0 nd0] & Heq & _).
  unfold prod_map in Heq. simpl in Heq. injection Heq as -> ->.
  destruct nd0; simpl in Hsome; congruence.
Qed.

Lemma getLogger_flat_adds_no_handler :
  getLogger_adds_no_handler getLogger_flat.
Proof.
  intros name_ d hs. unfold handler_lists.
  induction d as [|[nm nd] d IH]; simpl.
  - intros H. apply list_elem_of_singleton in H. by left.
  - destruct (decide (nm = name_)) as [->|Hne]; simpl.
    + destruct nd as [lg|]; simpl; [by right|].
      intros H. apply elem_of_cons in H as [->|H]; [by left|by right].
    + destruct nd as [lg|]; simpl; [|done].
      intros H. apply elem_of_cons in H as [->|H].
      * right. apply elem_of_cons. by left.
      * destruct (IH H) as [->|Hin]; [by left|].
        right. apply elem_of_cons. by right.
Qed.

(** X19.  In a worker process (any name but [__main__]),
    [MPLogger(name, queue)] returns exactly when a queue is given.  It
    then leaves the root logger with one handler, a new queue handler,
    and every logger of [loggerDict] without handlers, so the queue is
    the only sink of the process; handler objects that existed before
    are not changed.  Without a queue it raises [ValueError] and the
    loggers are as before. *)
Theorem MPLogger_init_worker
    (getLogger : string -> list (string * node) -> list (string * node))
    (Pipe : conn * conn) (name_ : string) (queue : option conn)
    (L : Logging) :
  getLogger_adds_no_handler getLogger ->
  name_ <> "__main__" ->
  match queue with
  | Some q =>
      exists (L' : Logging) (self : MPLogger),
        MPLogger_init getLogger Pipe name_ queue L = (L', OK self)
        /\ handlers (root L') = [free L]
        /\ store L' !! free L = Some queue_handler
        /\ (forall hs : list nat,
              hs ∈ handler_lists (loggerDict L') -> hs = [])
        /\ (forall a : nat,
              (a < free L)%nat -> store L' !! a = store L !! a)
        /\ _client self = Some q
  | None =>
      MPLogger_init getLogger Pipe name_ queue L
      = (L, Raise (ValueError "MPLogger for Process requires queue"))
  end.
Proof.
  intros Hget Hname. unfold MPLogger_init.
  rewrite decide_False by done. destruct queue as [q|]; [|done].
  eexists _, _. split; [reflexivity|]. simpl.
  split; [done|]. split; [by rewrite lookup_insert_eq|].
  split; [|split; [|done]].
  - intros hs Hhs. destruct (Hget _ _ _ Hhs) as [->|Hin]; [done|].
    by apply handler_lists_clear in Hin.
  - intros a Ha. by rewrite lookup_insert_ne by lia.
Qed.

Lemma MPLogger_init_worker_witness :
  getLogger_adds_no_handler getLogger_flat
  /\ "worker" <> "__main__"
  /\ exists (L' : Logging) (self : MPLogger),
       MPLogger_init getLogger_flat (3%nat, 4%nat) "worker" (Some 7%nat)
         some_logging
       = (L', OK self)
       /\ handlers (root L') = [free some_logging]
       /\ store L' !! free some_logging = Some queue_handler
       /\ (forall hs : list nat,
             hs ∈ handler_lists (loggerDict L') -> hs = [])
       /\ (forall a : nat,
             (a < free some_logging)%nat ->
             store L' !! a = store some_logging !! a)
       /\ _client self = Some 7%nat.
Proof.
  assert (H2 : "worker" <> "__main__") by discriminate.
  split; [exact getLogger_flat_adds_no_handler|]. split; [exact H2|].
  exact (MPLogger_init_worker getLogger_flat (3%nat, 4%nat) "worker"
           (Some 7%nat) some_logging getLogger_flat_adds_no_handler H2).
Defined.

Lemma receives_fields (starts : list bool) :
  forall self : MPLogger,
    _name (receives starts self) = _name self
    /\ _log_thread (receives starts self)
       = if decide (_name self = "__main__")
         then from_option Some (_log_thread self) (last starts)
         else _log_thread self.
Proof.
  unfold receives.
  induction starts as [|b starts IH] using rev_ind; intros self.
  { simpl. by destruct (decide _). }
  rewrite foldl_snoc, last_snoc. simpl.
  destruct (IH self) as [IHn IHt].
  set (obj := foldl _ self starts) in *.
  unfold MPLogger_receive. rewrite IHn.
  destruct (decide (_name self = "__main__")); simpl; done.
Qed.

(** X20.  [close()] after any run of [receive()] calls on a fresh
    [MPLogger] returns only in the main process and only when the last
    [receive()] started its receiver process; in every other case, in
    particular in every worker process and when [receive()] was never
    called, it raises [AttributeError].  Either way [_running] is
    cleared. *)
Theorem MPLogger_close_returns_iff
    (getLogger : string -> list (string * node) -> list (string * node))
    (Pipe : conn * conn) (name_ : string) (queue : option conn)
    (L L' : Logging) (self : MPLogger) (starts : list bool) :
  MPLogger_init getLogger Pipe name_ queue L = (L', OK self) ->
  ((MPLogger_close (receives starts self)).2 = OK tt
   <-> name_ = "__main__" /\ last starts = Some true)
  /\ ((MPLogger_close (receives starts self)).2 = OK tt
      \/ (MPLogger_close (receives starts self)).2 = Raise AttributeError)
  /\ _running (MPLogger_close (receives starts self)).1 = false.
Proof.
  intros Hinit.
  assert (Hself : _name self = name_ /\ _log_thread self = None).
  { unfold MPLogger_init in Hinit.
    destruct (decide _); [by injection Hinit as _ <-|].
    destruct queue; [by injection Hinit as _ <-|done]. }
  destruct Hself as [Hn Ht].
  destruct (receives_fields starts self) as [_ Hthread].
  rewrite Hn, Ht in Hthread.
  unfold MPLogger_close. simpl. rewrite Hthread.
  destruct (decide (name_ = "__main__")) as [Hmain|Hmain].
  - destruct (last starts) as [[|]|]; simpl.
    + split; [done|]. split; [by left|done].
    + split; [split; [done|by intros [_ ?]]|]. split; [by right|done].
    + split; [split; [done|by intros [_ ?]]|]. split; [by right|done].
  - simpl. split; [split; [done|by intros [? _]]|].
    split; [by right|done].
Qed.

Lemma MPLogger_close_returns_iff_witness :
  MPLogger_init getLogger_flat (3%nat, 4%nat) "__main__" None some_logging
  = ({| store := store some_logging; free := free some_logging;
        root := root some_logging;
        loggerDict := getLogger_flat "__main__" (loggerDict some_logging) |},
     OK {| _running := false; _log_thread := None; _name := "__main__";
           _client := Some 4%nat; _server := Some 3%nat |})
  /\ ((MPLogger_close
         (receives [false; true]
            {| _running := false; _log_thread := None; _name := "__main__";
               _client := Some 4%nat; _server := Some 3%nat |})).2 = OK tt
      <-> "__main__" = "__main__" /\ last [false; true] = Some true).
Proof.
  assert (H1 : MPLogger_init getLogger_flat (3%nat, 4%nat) "__main__" None
                 some_logging
               = ({| store := store some_logging; free := free some_logging;
                     root := root some_logging;
                     loggerDict :=
                       getLogger_flat "__main__" (loggerDict some_logging) |},
                  OK {| _running := false; _log_thread := None;
                        _name := "__main__";
                        _client := Some 4%nat; _server := Some 3%nat |}))
    by reflexivity.
  split; [exact H1|].
  exact (proj1 (MPLogger_close_returns_iff getLogger_flat (3%nat, 4%nat)
                  "__main__" None some_logging _ _ [false; true] H1)).
Defined.
